(** * xml_parser.py: geometry-based reconstruction of a diagram hierarchy

    A shallow embedding of [src/xml-to-json-parser/xml_parser.py]
    ([parse_geometry], [is_contained], [parse_drawio_xml_v3]) and the
    properties of the loader, the containment resolver and the tree
    assembler.

    Conventions of the embedding:
    - a Python [float] is an IEEE-754 binary64 number, Rocq's primitive
      [float]; comparisons and arithmetic are the primitive ones, so NaN
      and the infinities behave as they do in Python;
    - a Python [str] is a [string], each character standing for a code
      point below 256;
    - an [xml.etree.ElementTree.Element] is a rose tree of tag, attributes
      and children;
    - the [nodes] dictionary is an association list in insertion order,
      assignment to an existing key replacing the value in place;
    - a node object put in a [children] list is a reference: the list
      holds the key under which the object lives in [nodes].

    Further on come the command line of the parser and its caller
    [run_xml_to_json] with the loop of unify_dataset.py, over a file
    system of regular files, and the cleaning and retrying of the answers
    of the text model in tf_to_xml_converter.py and processor.py. *)

From Stdlib Require Import String Ascii List Bool Arith ZArith Lia.
From Stdlib Require Import Floats.
Import ListNotations.

Set Warnings "-register-all".

Local Open Scope string_scope.
Local Open Scope list_scope.

(** ** Python floats *)

Module PyFloat.

(** [a <= b], [a >= b], [a < b] on Python floats. *)
Definition le (a b : float) : bool := PrimFloat.leb a b.
Definition ge (a b : float) : bool := PrimFloat.leb b a.
Definition lt (a b : float) : bool := PrimFloat.ltb a b.

(** [float(0)], the value of the integer default of [geo.get(k, 0)]. *)
Definition zero : float := PrimFloat.zero.

End PyFloat.

(** ** Python strings *)

Module PyStr.

(** [c.isspace()] for a code point below 256: TAB, LF, VT, FF, CR, the
    separators 0x1c-0x1f, SPACE, NEL (0x85) and NBSP (0xa0). *)
Definition isspace (c : ascii) : bool :=
  let n := nat_of_ascii c in
  (((9 <=? n) && (n <=? 13)) || ((28 <=? n) && (n <=? 32))
   || (n =? 133) || (n =? 160))%nat.

Fixpoint lstrip (s : string) : string :=
  match s with
  | EmptyString => EmptyString
  | String c s' => if isspace c then lstrip s' else s
  end.

Fixpoint rstrip (s : string) : string :=
  match s with
  | EmptyString => EmptyString
  | String c s' =>
      match rstrip s' with
      | EmptyString => if isspace c then EmptyString else String c EmptyString
      | r => String c r
      end
  end.

(** [s.strip()] *)
Definition strip (s : string) : string := rstrip (lstrip s).

(** [s.replace("<br>", " ")]: occurrences are replaced from the left,
    without overlap. *)
Fixpoint replace_br (s : string) : string :=
  match s with
  | EmptyString => EmptyString
  | String c s' =>
      match s' with
      | String c2 (String c3 (String c4 rest)) =>
          if Ascii.eqb c "<" && Ascii.eqb c2 "b" && Ascii.eqb c3 "r" && Ascii.eqb c4 ">"
          then String " " (replace_br rest)
          else String c (replace_br s')
      | _ => String c (replace_br s')
      end
  end.

(** Whether [s] begins with the token [<br>]. *)
Definition starts_br (s : string) : bool :=
  match s with
  | String c (String c2 (String c3 (String c4 _))) =>
      Ascii.eqb c "<" && Ascii.eqb c2 "b" && Ascii.eqb c3 "r" && Ascii.eqb c4 ">"
  | _ => false
  end.

(** Whether the first, respectively the last, character is whitespace. *)
Definition starts_with_space (s : string) : bool :=
  match s with
  | EmptyString => false
  | String c _ => isspace c
  end.

Fixpoint ends_with_space (s : string) : bool :=
  match s with
  | EmptyString => false
  | String c EmptyString => isspace c
  | String _ s' => ends_with_space s'
  end.

(** Truth value of an optional string: [None] and [""] are false. *)
Definition truthy (o : option string) : bool :=
  match o with
  | Some (String _ _) => true
  | _ => false
  end.

End PyStr.

(** ** ElementTree elements *)

Inductive element : Type :=
  Element (tag : string) (attrib : list (string * string)) (children : list element).

Definition tag (e : element) : string := let (t, _, _) := e in t.
Definition attrib (e : element) : list (string * string) := let (_, a, _) := e in a.
Definition subelements (e : element) : list element := let (_, _, c) := e in c.

Fixpoint assoc {A : Type} (k : string) (l : list (string * A)) : option A :=
  match l with
  | [] => None
  | (k', v) :: l' => if String.eqb k k' then Some v else assoc k l'
  end.

(** [e.get(k)] *)
Definition get (e : element) (k : string) : option string := assoc k (attrib e).

(** [e.findall(t)]: the direct children with tag [t], in document order. *)
Definition findall (e : element) (t : string) : list element :=
  filter (fun c => String.eqb (tag c) t) (subelements e).

(** [e.find(t)]: the first direct child with tag [t]. *)
Definition find (e : element) (t : string) : option element :=
  hd_error (findall e t).

(** [e.iter()]: the element and its descendants, in document order. *)
Fixpoint iter (e : element) : list element :=
  match e with
  | Element _ _ cs => e :: flat_map iter cs
  end.

(** [root.find(".//mxGraphModel/root")]: over the proper descendants of
    [root] tagged [mxGraphModel], in document order, the children tagged
    [root]; the first of them. *)
Definition find_graph_model_root (root : element) : option element :=
  hd_error
    (flat_map (fun m => findall m "root")
       (filter (fun e => String.eqb (tag e) "mxGraphModel")
          (flat_map iter (subelements root)))).

(** ** The node dictionary *)

Record geometry_t : Type := Geometry {
  x : float;
  y : float;
  width : float;
  height : float
}.

(** A node object.  [geometry] is [None] once [del node["geometry"]] has
    run; [children] holds references to node objects, that is, keys of
    the dictionary the objects live in. *)
Record node : Type := Node {
  id : string;
  label : string;
  geometry : option geometry_t;
  children : list string
}.

Definition dict : Type := list (string * node).

(** [list(d.keys())] *)
Definition keys (d : dict) : list string := map fst d.

(** [d[k] = v]: a new key goes to the end, an existing key keeps its
    place. *)
Fixpoint dict_set (d : dict) (k : string) (v : node) : dict :=
  match d with
  | [] => [(k, v)]
  | (k', v') :: d' =>
      if String.eqb k k' then (k', v) :: d' else (k', v') :: dict_set d' k v
  end.

(** In-place mutation of the object stored under [k]. *)
Fixpoint dict_adjust (f : node -> node) (k : string) (d : dict) : dict :=
  match d with
  | [] => []
  | (k', v) :: d' =>
      if String.eqb k k' then (k', f v) :: d' else (k', v) :: dict_adjust f k d'
  end.

(** [nodes[parent_id]["children"].append(nodes[child_id])] *)
Definition append_child (nodes : dict) (parent_id child_id : string) : dict :=
  dict_adjust
    (fun n => Node (id n) (label n) (geometry n) (children n ++ [child_id]))
    parent_id nodes.

(** ** Containment *)

Definition is_contained (child_geo parent_geo : option geometry_t) : bool :=
  match child_geo, parent_geo with
  | Some c, Some p =>
      PyFloat.ge (x c) (x p) &&
      PyFloat.ge (y c) (y p) &&
      PyFloat.le (x c + width c)%float (x p + width p)%float &&
      PyFloat.le (y c + height c)%float (y p + height p)%float
  | _, _ => false
  end.

(** [nodes[k]["geometry"]] *)
Definition geometry_of (nodes : dict) (k : string) : option geometry_t :=
  match assoc k nodes with
  | Some n => geometry n
  | None => None
  end.

(** [g["width"] * g["height"]] *)
Definition area (g : geometry_t) : float := (width g * height g)%float.

(** The area of the geometry stored under [k]; NaN
    stands in where there is none (the resolver never asks for it). *)
Definition area_of (nodes : dict) (k : string) : float :=
  match geometry_of nodes k with
  | Some g => area g
  | None => PrimFloat.nan
  end.

(** [min(items, key=lambda item: item[1])] on a non-empty list
    [best :: rest]: a later item replaces the current minimum only when
    its key is strictly smaller. *)
Fixpoint min_by_area (best : string * float) (rest : list (string * float))
  : string * float :=
  match rest with
  | [] => best
  | item :: rest' =>
      if PyFloat.lt (snd item) (snd best)
      then min_by_area item rest'
      else min_by_area best rest'
  end.

(** The inner loop of pass 2 for one [child_id]. *)
Definition potential_parents (nodes : dict) (all_node_ids : list string)
    (child_id : string) : list (string * float) :=
  flat_map
    (fun parent_id =>
       if String.eqb child_id parent_id then []
       else if is_contained (geometry_of nodes child_id) (geometry_of nodes parent_id)
            then [(parent_id, area_of nodes parent_id)]
            else [])
    all_node_ids.

(** The parent pass 2 picks for [child_id], if any. *)
Definition best_parent (nodes : dict) (all_node_ids : list string)
    (child_id : string) : option string :=
  match potential_parents nodes all_node_ids child_id with
  | [] => None
  | p :: rest => Some (fst (min_by_area p rest))
  end.

Definition pass2_step (all_node_ids : list string) (nodes : dict)
    (child_id : string) : dict :=
  match best_parent nodes all_node_ids child_id with
  | Some best_parent_id => append_child nodes best_parent_id child_id
  | None => nodes
  end.

(** Pass 2: determine parent-child relationships based on geometry. *)
Definition pass2 (nodes : dict) : dict :=
  let all_node_ids := keys nodes in
  fold_left (pass2_step all_node_ids) all_node_ids nodes.

(** ** Assembling the forest *)

(** The set [child_ids]: [child["id"]] for every child of every node. *)
Definition child_ids (nodes : dict) : list string :=
  flat_map
    (fun kv =>
       flat_map
         (fun c => match assoc c nodes with Some n => [id n] | None => [] end)
         (children (snd kv)))
    nodes.

Definition mem (k : string) (l : list string) : bool :=
  existsb (String.eqb k) l.

(** [hierarchical_tree], as references. *)
Definition hierarchical_tree (nodes : dict) : list string :=
  filter (fun node_id => negb (mem node_id (child_ids nodes))) (keys nodes).

(** An emitted node: what is left of a node object once [clean_tree] has
    deleted its geometry, with the references in [children] followed. *)
Inductive tree : Type :=
  Tree (tree_id : string) (tree_label : string) (tree_children : list tree).

Definition tree_id (t : tree) : string := let (i, _, _) := t in i.
Definition tree_label (t : tree) : string := let (_, l, _) := t in l.
Definition tree_children (t : tree) : list tree := let (_, _, c) := t in c.

Fixpoint sequence {A : Type} (l : list (option A)) : option (list A) :=
  match l with
  | [] => Some []
  | None :: _ => None
  | Some a :: l' =>
      match sequence l' with
      | Some r => Some (a :: r)
      | None => None
      end
  end.

(** [clean_tree] on one node: the node loses its geometry and its
    children are cleaned in turn.  [fuel] bounds the depth of the descent;
    [None] is a descent deeper than [fuel]. *)
Fixpoint clean_node (fuel : nat) (nodes : dict) (ref : string) : option tree :=
  match fuel with
  | O => None
  | S fuel' =>
      match assoc ref nodes with
      | None => None
      | Some n =>
          match sequence (map (clean_node fuel' nodes) (children n)) with
          | Some ts => Some (Tree (id n) (label n) ts)
          | None => None
          end
      end
  end.

Definition clean_tree (fuel : nat) (nodes : dict) (node_list : list string)
  : option (list tree) :=
  sequence (map (clean_node fuel nodes) node_list).

(** ** Connections and the output document *)

Record connection : Type := Connection {
  source_id : string;
  source_label : string;
  target_id : string;
  target_label : string
}.

Record output_schema : Type := OutputSchema {
  schema_version : string;
  diagram_name : string;
  architecture : list tree;
  connections : list connection
}.

Definition opt_eqb (o : option string) (s : string) : bool :=
  match o with
  | Some v => String.eqb v s
  | None => false
  end.

(** The body of the pass 3 loop for one cell: the entries it appends to
    [edges]. *)
Definition edge_of_cell (nodes : dict) (cell : element) : list connection :=
  if opt_eqb (get cell "edge") "1" then
    match get cell "source", get cell "target" with
    | Some s, Some t =>
        match assoc s nodes, assoc t nodes with
        | Some ns, Some nt => [Connection s (label ns) t (label nt)]
        | _, _ => []
        end
    | _, _ => []
    end
  else [].

(** Pass 3: extract edges (connections). *)
Definition pass3 (nodes : dict) (cells : list element) : list connection :=
  flat_map (edge_of_cell nodes) cells.

(** What [ET.parse(path).getroot()] gives: the root element, or one of the
    two exceptions the parser catches. *)
Inductive et_parse : Type :=
  | ParseError
  | FileNotFoundError
  | Root (root : element).

Inductive exn : Type := AttributeError | KeyError.

(** What a call of [parse_drawio_xml_v3] does: it returns [None], it
    returns the document (serialised by [json.dumps]), or it raises. *)
Inductive outcome : Type :=
  | ReturnNone
  | Return (doc : output_schema)
  | Raise (e : exn).

Section Parser.

(** The builtin [float] on a string: [None] is [ValueError]. *)
Variable py_float : string -> option float.

(** [float(geo.get(k, 0))] *)
Definition float_attr (geo : element) (k : string) : option float :=
  match get geo k with
  | Some s => py_float s
  | None => Some PyFloat.zero
  end.

Definition parse_geometry (cell : element) : option geometry_t :=
  match find cell "mxGeometry" with
  | None => None
  | Some geo =>
      match float_attr geo "x", float_attr geo "y",
            float_attr geo "width", float_attr geo "height" with
      | Some vx, Some vy, Some vw, Some vh => Some (Geometry vx vy vw vh)
      | _, _, _, _ => None
      end
  end.

(** [cell.get("value", "").strip().replace("<br>", " ")] *)
Definition cell_label (cell : element) : string :=
  PyStr.replace_br
    (PyStr.strip (match get cell "value" with Some v => v | None => "" end)).

(** The body of the pass 1 loop for one cell: the entry it stores in
    [nodes], if any. *)
Definition node_of_cell (cell : element) : option (string * node) :=
  if opt_eqb (get cell "vertex") "1" && PyStr.truthy (get cell "value") then
    let node_id := get cell "id" in
    let geometry := parse_geometry cell in
    match node_id, geometry with
    | Some (String c i as k), Some g => Some (k, Node k (cell_label cell) (Some g) [])
    | _, _ => None
    end
  else None.

Definition pass1_step (nodes : dict) (cell : element) : dict :=
  match node_of_cell cell with
  | Some (k, n) => dict_set nodes k n
  | None => nodes
  end.

(** Pass 1: extract all vertices with their geometry and value. *)
Definition pass1 (cells : list element) : dict :=
  fold_left pass1_step cells [].

(** The whole function, from the outcome of [ET.parse] on.  [clean_tree]
    is given the number of nodes as fuel: a descent deeper than that
    would come to a node a second time, where [del node["geometry"]]
    raises [KeyError].  The name of the diagram is read last, and raises
    [AttributeError] when the root has no [diagram] child. *)
Definition parse_drawio_xml_v3 (src : et_parse) : outcome :=
  match src with
  | ParseError | FileNotFoundError => ReturnNone
  | Root root =>
      match find_graph_model_root root with
      | None => ReturnNone
      | Some graph_model_root =>
          let cells := findall graph_model_root "mxCell" in
          let nodes := pass2 (pass1 cells) in
          let roots := hierarchical_tree nodes in
          match clean_tree (length nodes) nodes roots with
          | None => Raise KeyError
          | Some forest =>
              let edges := pass3 nodes cells in
              match find root "diagram" with
              | None => Raise AttributeError
              | Some diagram =>
                  Return
                    (OutputSchema "3.0"
                       (match get diagram "name" with
                        | Some name => name
                        | None => "Untitled"
                        end)
                       forest edges)
              end
          end
      end
  end.

End Parser.

(** A [float] for running examples: it reads a string of decimal digits
    denoting a number below 2^53 as Python does, and nothing else. *)
Fixpoint digits (acc : Z) (s : string) : option Z :=
  match s with
  | EmptyString => Some acc
  | String c s' =>
      let n := nat_of_ascii c in
      if ((48 <=? n) && (n <=? 57))%nat
      then digits (10 * acc + Z.of_nat (n - 48)) s'
      else None
  end.

Definition decimal_float (s : string) : option float :=
  match s with
  | EmptyString => None
  | _ =>
      match digits 0 s with
      | Some z =>
          if (z <? 2 ^ 53)%Z then Some (PrimFloat.of_uint63 (Uint63.of_Z z))
          else None
      | None => None
      end
  end.

(** ** Notions the properties are stated with *)

(** What pass 1 hands to pass 2: keys are distinct, every object carries
    its key as [id] and a geometry, and no object has children yet. *)
Definition fresh (d : dict) : Prop :=
  NoDup (keys d) /\
  forall k n, assoc k d = Some n ->
    id n = k /\ children n = [] /\ geometry n <> None.

(** The parent pass 2 computes for [child_id] over the whole of [nodes]. *)
Definition parent_of (nodes : dict) (child_id : string) : option string :=
  best_parent nodes (keys nodes) child_id.

(** [child_id] has been appended to the children of [parent_id]. *)
Definition assigned (nodes : dict) (parent_id child_id : string) : Prop :=
  exists n, assoc parent_id nodes = Some n /\ In child_id (children n).

Definition is_some {A : Type} (o : option A) : bool :=
  match o with Some _ => true | None => false end.

(** The object [n] after the references [extra] have been appended to
    its children. *)
Definition with_children (extra : list string) (n : node) : node :=
  Node (id n) (label n) (geometry n) (children n ++ extra).

(** [chain nodes c anc]: [anc] is the list of the computed ancestors of
    [c], parent first, ending at an element without a parent. *)
Inductive chain (nodes : dict) : string -> list string -> Prop :=
  | chain_root r :
      In r (keys nodes) -> parent_of nodes r = None -> chain nodes r []
  | chain_step c p anc :
      In c (keys nodes) -> parent_of nodes c = Some p ->
      chain nodes p anc -> chain nodes c (p :: anc).

(** The ids of a tree, and of a forest, in the order [clean_tree] visits
    the nodes. *)
Fixpoint tree_ids (t : tree) : list string :=
  match t with
  | Tree i _ cs => i :: flat_map tree_ids cs
  end.

Definition forest_ids (forest : list tree) : list string :=
  flat_map tree_ids forest.

(** [through nodes tail k e]: walking up from [e] one comes to [k], and
    from there on through [tail] to a root. *)
Definition through (nodes : dict) (tail : list string) (k e : string) : Prop :=
  exists pre anc, chain nodes e anc /\ e :: anc = pre ++ k :: tail.

(** [subtree s t]: the tree [s] is [t] or lies somewhere below it. *)
Inductive subtree : tree -> tree -> Prop :=
  | subtree_here t : subtree t t
  | subtree_below s c t :
      In c (tree_children t) -> subtree s c -> subtree s t.

(** [s] is a node of the forest, at any depth. *)
Definition in_forest (s : tree) (forest : list tree) : Prop :=
  exists t, In t forest /\ subtree s t.

(** [parent_id] is a candidate parent of [child_id]: the test of the
    inner loop of pass 2. *)
Definition candidate (nodes : dict) (child_id parent_id : string) : bool :=
  negb (String.eqb child_id parent_id) &&
  is_contained (geometry_of nodes child_id) (geometry_of nodes parent_id).

(** The inclusive-boundary predicate: box [A] contains box [B]. *)
Definition contains (A B : geometry_t) : Prop :=
  PyFloat.ge (x B) (x A) = true /\
  PyFloat.ge (y B) (y A) = true /\
  PyFloat.le (x B + width B)%float (x A + width A)%float = true /\
  PyFloat.le (y B + height B)%float (y A + height A)%float = true.

(** Pass 2 and the assembly of the forest, as [parse_drawio_xml_v3] chains
    them on the dictionary pass 1 built. *)
Definition resolve_and_assemble (nodes0 : dict) : option (list tree) :=
  let nodes := pass2 nodes0 in
  clean_tree (length nodes) nodes (hierarchical_tree nodes).

(** [s] has no whitespace at either end. *)
Definition trimmed (s : string) : Prop :=
  PyStr.starts_with_space s = false /\ PyStr.ends_with_space s = false.

Fixpoint all_space (s : string) : bool :=
  match s with
  | EmptyString => true
  | String c s' => PyStr.isspace c && all_space s'
  end.

(** [s] holds the line-break token somewhere. *)
Definition has_br (s : string) : Prop :=
  exists p q, s = (p ++ "<br>" ++ q)%string.

(** The conditions of the loader on a raw cell. *)
Definition marked_vertex (cell : element) : Prop :=
  get cell "vertex" = Some "1".

Definition has_label (cell : element) : Prop :=
  exists v, get cell "value" = Some v /\ v <> "".

Definition has_id (cell : element) : Prop :=
  exists i, get cell "id" = Some i /\ i <> "".

(** The cell has a geometry record, and each of [x], [y], [width],
    [height] that the record carries is accepted by [float]. *)
Definition has_numeric_geometry (py_float : string -> option float)
    (cell : element) : Prop :=
  exists geo, find cell "mxGeometry" = Some geo /\
    forall k s, In k ["x"; "y"; "width"; "height"] ->
      get geo k = Some s -> py_float s <> None.

(** The value [float(geo.get(k, 0))] takes when it is [v]: zero for an
    absent attribute, what [float] reads for a present one. *)
Definition coordinate (py_float : string -> option float) (geo : element)
    (k : string) (v : float) : Prop :=
  match get geo k with
  | None => v = PyFloat.zero
  | Some s => py_float s = Some v
  end.

(** [doc] is the whole document of the source [src]: the source has a
    root with a graph-model container and a diagram element, and the four
    fields of [doc] are the schema version, the name of the diagram or the
    placeholder, the forest of all the Elements of the container and the
    connections of all its cells. *)
Definition complete (py_float : string -> option float) (src : et_parse)
    (doc : output_schema) : Prop :=
  exists root graph_model_root diagram,
    src = Root root /\
    find_graph_model_root root = Some graph_model_root /\
    find root "diagram" = Some diagram /\
    schema_version doc = "3.0" /\
    diagram_name doc =
      match get diagram "name" with Some name => name | None => "Untitled" end /\
    resolve_and_assemble (pass1 py_float (findall graph_model_root "mxCell"))
      = Some (architecture doc) /\
    connections doc =
      pass3 (pass2 (pass1 py_float (findall graph_model_root "mxCell")))
        (findall graph_model_root "mxCell").

(** ** Example documents *)

Definition mxGeometry (vx vy vw vh : string) : element :=
  Element "mxGeometry"
    [("x", vx); ("y", vy); ("width", vw); ("height", vh); ("as", "geometry")] [].

Definition vertex_cell (i v vx vy vw vh : string) : element :=
  Element "mxCell" [("id", i); ("value", v); ("vertex", "1"); ("parent", "1")]
    [mxGeometry vx vy vw vh].

Definition edge_cell (i s t : string) : element :=
  Element "mxCell" [("id", i); ("edge", "1"); ("source", s); ("target", t)] [].

Definition mxfile (diagram_attrib : list (string * string)) (cells : list element)
  : element :=
  Element "mxfile" []
    [Element "diagram" diagram_attrib
       [Element "mxGraphModel" [] [Element "root" [] cells]]].

(** A box [A], a box [B] inside it, a box [C] apart, and an edge from [B]
    to [C]. *)
Definition nested_cells : list element :=
  [vertex_cell "A" "Box A" "0" "0" "400" "400";
   vertex_cell "B" " Box<br>B " "20" "20" "150" "150";
   vertex_cell "C" "Box C" "1000" "1000" "50" "50";
   edge_cell "e1" "B" "C";
   edge_cell "e2" "B" "nowhere"].

(** Two boxes [D] and [E] drawn on top of each other. *)
Definition coincident_cells : list element :=
  [vertex_cell "D" "Box D" "0" "0" "400" "400";
   vertex_cell "E" "Box E" "0" "0" "400" "400"].

(** The boxes [D] and [E] on top of each other, and a box [F] inside
    both. *)
Definition tie_cells : list element :=
  coincident_cells ++ [vertex_cell "F" "Box F" "20" "20" "150" "150"].

(** Two points [Z] and [Z2] at the same place. *)
Definition point_cells : list element :=
  [vertex_cell "Z" "Point Z" "5" "5" "0" "0";
   vertex_cell "Z2" "Point Z2" "5" "5" "0" "0";
   vertex_cell "A" "Box A" "0" "0" "10" "10"].

(** A vertex cell whose label begins with a line break. *)
Definition br_cells : list element :=
  [vertex_cell "X" "<br>A" "0" "0" "10" "10"].

(** Two cells with the id [A], and a cell [B] between them. *)
Definition duplicate_cells : list element :=
  [vertex_cell "A" "first" "0" "0" "10" "10";
   vertex_cell "B" "other" "50" "50" "10" "10";
   vertex_cell "A" "second" "5" "5" "20" "20"].

(** A vertex cell with a label and a geometry, and no [id]. *)
Definition anonymous_cell : element :=
  Element "mxCell" [("value", "Box"); ("vertex", "1")] [mxGeometry "0" "0" "10" "10"].

(** A vertex cell whose geometry record names a width and nothing else. *)
Definition sparse_cell : element :=
  Element "mxCell" [("id", "S"); ("value", "Sparse"); ("vertex", "1")]
    [Element "mxGeometry" [("width", "30"); ("as", "geometry")] []].

(** Running the examples: [run_pass1] evaluates the dictionary of an
    example, [refute_contains] a containment between two of its boxes
    that does not hold. *)
Ltac run_pass1 cells :=
  let d := fresh "d" in
  set (d := pass1 decimal_float cells) in *; vm_compute in d; subst d.

Ltac refute_contains H :=
  vm_compute in H; decompose [and] H; discriminate.

(** ** The command line of the parser and its caller in unify_dataset.py *)

Module PyText.

(** [s.startswith(p)] *)
Fixpoint startswith (p s : string) : bool :=
  match p, s with
  | EmptyString, _ => true
  | String a p', String b s' => Ascii.eqb a b && startswith p' s'
  | String _ _, EmptyString => false
  end.

(** [s.endswith(p)] *)
Fixpoint endswith (p s : string) : bool :=
  if String.eqb s p then true
  else match s with
       | EmptyString => false
       | String _ s' => endswith p s'
       end.

End PyText.

Module PyPath.

(** [os.path.join(a, b)] of [posixpath]. *)
Definition join (a b : string) : string :=
  if PyText.startswith "/" b then b
  else if String.eqb a "" || PyText.endswith "/" a then (a ++ b)%string
  else (a ++ "/" ++ b)%string.

End PyPath.

(** The regular files of a file system, by path; the first entry of a
    path is the file. *)
Definition files : Type := list (string * string).

Definition read_file (fs : files) (path : string) : option string := assoc path fs.

(** [os.path.exists(path)], for the path of a regular file. *)
Definition path_exists (fs : files) (path : string) : bool :=
  is_some (read_file fs path).

(** [open(path, 'w').write(text)] *)
Definition write_file (fs : files) (path text : string) : files :=
  (path, text) :: fs.

(** What [subprocess.run(..., capture_output=True, text=True)] gets back
    from a child that ran. *)
Record completed_process : Type := CompletedProcess {
  returncode : nat;
  stdout : string
}.

(** How the launch of [sys.executable xml_parser_v3.py path] goes: the
    interpreter is missing, the interpreter does not find the script, or
    the script runs. *)
Inductive launch : Type := NoInterpreter | NoScript | Runs.

Module XmlParser.
Section Main.

Variable py_float : string -> option float.

(** [json.dumps(output_schema, indent=2)] *)
Variable json_dumps : output_schema -> string.

(** [ET.parse(path).getroot()] on the text of a file that exists. *)
Variable ET_parse : string -> et_parse.

(** [ET.parse] on a path: a missing file is [FileNotFoundError]. *)
Definition parse_path (fs : files) (path : string) : et_parse :=
  match read_file fs path with
  | Some text => ET_parse text
  | None => FileNotFoundError
  end.

(** [main] on the argument [input_file]: the exit status and what was
    printed on standard output.  [sys.exit(1)] and an exception that
    nothing catches both end the process with status 1. *)
Definition main (fs : files) (input_file : string) : completed_process :=
  match parse_drawio_xml_v3 py_float (parse_path fs input_file) with
  | Return doc =>
      let instruction_json := json_dumps doc in
      if PyStr.truthy (Some instruction_json)
      then CompletedProcess 0 (instruction_json ++ String "010" EmptyString)
      else CompletedProcess 1 ""
  | ReturnNone => CompletedProcess 1 ""
  | Raise _ => CompletedProcess 1 ""
  end.

End Main.
End XmlParser.

Module UnifyDataset.
Section Main.

Variable py_float : string -> option float.
Variable json_dumps : output_schema -> string.
Variable ET_parse : string -> et_parse.
Variable env : launch.

(** [subprocess.run([sys.executable, "xml_parser_v3.py", xml_file_path],
    capture_output=True, text=True)]: [None] is [FileNotFoundError]. *)
Definition subprocess_run (fs : files) (xml_file_path : string)
  : option completed_process :=
  match env with
  | NoInterpreter => None
  | NoScript => Some (CompletedProcess 2 "")
  | Runs => Some (XmlParser.main py_float json_dumps ET_parse fs xml_file_path)
  end.

(** [run_xml_to_json]: the value returned and the file system it leaves.
    With [check=True] a status other than 0 is [CalledProcessError].  The
    output path is taken to be writable. *)
Definition run_xml_to_json (fs : files) (xml_file_path output_json_path : string)
  : bool * files :=
  match subprocess_run fs xml_file_path with
  | None => (false, fs)
  | Some result =>
      if Nat.eqb (returncode result) 0
      then (true, write_file fs output_json_path (stdout result))
      else (false, fs)
  end.

(** What [run_xml_to_json] would write for [xml_file_path], if anything. *)
Definition converted (fs : files) (xml_file_path : string) : option string :=
  match subprocess_run fs xml_file_path with
  | Some result =>
      if Nat.eqb (returncode result) 0 then Some (stdout result) else None
  | None => None
  end.

(** The state of the loop of step 2 in [main]. *)
Record progress : Type := Progress {
  file_system : files;
  successful_json_conversions : nat;
  failed_json_conversions : list string
}.

(** The body of the loop for one [dir_name]. *)
Definition verify (dataset_dir : string) (st : progress) (dir_name : string)
  : progress :=
  let fs := file_system st in
  let full_dir_path := PyPath.join dataset_dir dir_name in
  let xml_path := PyPath.join full_dir_path "diagram.xml" in
  let json_path := PyPath.join full_dir_path "instruction.json" in
  if path_exists fs json_path then
    Progress fs (successful_json_conversions st + 1) (failed_json_conversions st)
  else if negb (path_exists fs xml_path) then st
  else
    let (ok, fs') := run_xml_to_json fs xml_path json_path in
    if ok then
      Progress fs' (successful_json_conversions st + 1) (failed_json_conversions st)
    else
      Progress fs' (successful_json_conversions st)
        (failed_json_conversions st ++ [dir_name]).

(** Step 2 of [main]: the loop over the subdirectories of the dataset. *)
Definition xml_to_json_conversion (dataset_dir : string)
    (subdirectories : list string) (fs : files) : progress :=
  fold_left (verify dataset_dir) subdirectories (Progress fs 0 []).

End Main.
End UnifyDataset.

(** The two paths the loop of step 2 looks at for [dir_name]. *)
Definition xml_path (dataset_dir dir_name : string) : string :=
  PyPath.join (PyPath.join dataset_dir dir_name) "diagram.xml".

Definition json_path (dataset_dir dir_name : string) : string :=
  PyPath.join (PyPath.join dataset_dir dir_name) "instruction.json".




(** What the loop of step 2 leaves under the path of [instruction.json]
    for [dir_name], read off the file system [fs] the loop started on:
    the file that was there, or what the conversion of [diagram.xml]
    writes, or nothing. *)
Definition json_after (py_float : string -> option float)
    (json_dumps : output_schema -> string) (ET_parse : string -> et_parse)
    (env : launch) (dataset_dir : string) (fs : files) (dir_name : string)
  : option string :=
  match read_file fs (json_path dataset_dir dir_name) with
  | Some old => Some old
  | None =>
      if path_exists fs (xml_path dataset_dir dir_name)
      then UnifyDataset.converted py_float json_dumps ET_parse env fs
             (xml_path dataset_dir dir_name)
      else None
  end.

(** [dir_name] has a [diagram.xml], no [instruction.json], and its
    conversion fails. *)
Definition conversion_fails (py_float : string -> option float)
    (json_dumps : output_schema -> string) (ET_parse : string -> et_parse)
    (env : launch) (dataset_dir : string) (fs : files) (dir_name : string)
  : bool :=
  negb (path_exists fs (json_path dataset_dir dir_name)) &&
  path_exists fs (xml_path dataset_dir dir_name) &&
  negb (is_some (UnifyDataset.converted py_float json_dumps ET_parse env fs
                   (xml_path dataset_dir dir_name))).




(** ** Cleaning the answers of the text model *)

Module PySlice.

(** [s[n:]] *)
Fixpoint drop (n : nat) (s : string) : string :=
  match n, s with
  | O, _ => s
  | S n', String _ s' => drop n' s'
  | S _, EmptyString => EmptyString
  end.

(** [s[:-n]] for a positive [n]: all but the last [n] characters. *)
Definition drop_last (n : nat) (s : string) : string :=
  String.substring 0 (String.length s - n) s.

(** [s.replace(old, new)] for a non-empty [old]: [skip] counts the
    characters of the occurrence just replaced that are still to pass. *)
Fixpoint replace_from (old new : string) (skip : nat) (s : string) : string :=
  match s with
  | EmptyString => EmptyString
  | String c s' =>
      match skip with
      | S k => replace_from old new k s'
      | O =>
          if PyText.startswith old s
          then (new ++ replace_from old new (String.length old - 1) s')%string
          else String c (replace_from old new 0 s')
      end
  end.

Definition replace (old new s : string) : string := replace_from old new 0 s.

End PySlice.

(** [s] occurs somewhere in [t]. *)
Definition occurs (s t : string) : Prop :=
  exists a b, t = (a ++ s ++ b)%string.

(** The number of backquotes [s] begins with. *)
Fixpoint leading_backquotes (s : string) : nat :=
  match s with
  | EmptyString => 0
  | String c s' => if Ascii.eqb c "`" then S (leading_backquotes s') else 0
  end.

Module TfToXmlConverter.

(** What a call of [model.generate_content(prompt)] followed by
    [response.text] gives: an exception, or the text. *)
Inductive api_result : Type :=
  | ApiError
  | Response (text : string).

(** What a call of [generate_drawio_xml] does: the value it returns, the
    number of calls of the API it makes, and the seconds it asks
    [time.sleep] for in total. *)
Record run : Type := Run {
  result : option string;
  calls : nat;
  slept : nat
}.

(** Lines 64 to 68: the text of the answer without surrounding whitespace
    and without the fence of a Markdown code block. *)
Definition clean (text : string) : string :=
  let xml_content := PyStr.strip text in
  let xml_content :=
    if PyText.startswith "```xml" xml_content
    then PyStr.strip (PySlice.drop 6 xml_content)
    else xml_content in
  if PyText.endswith "```" xml_content
  then PyStr.strip (PySlice.drop_last 3 xml_content)
  else xml_content.

Section Generate.

(** [GEMINI_API_KEY] of config.py. *)
Variable api_key : option string.

(** Whether [genai.configure] and [genai.GenerativeModel] go through. *)
Variable configure_ok : bool.

(** The answer to the call of the API made in the attempt of a given
    number. *)
Variable generate_content : nat -> api_result.

(** Whether [ET.fromstring] accepts a text. *)
Variable fromstring_ok : string -> bool.

(** [not GEMINI_API_KEY or GEMINI_API_KEY == 'PASTE_YOUR_GEMINI_API_KEY_HERE'] *)
Definition key_missing : bool :=
  negb (PyStr.truthy api_key) || opt_eqb api_key "PASTE_YOUR_GEMINI_API_KEY_HERE".

(** The body of the [try] in one attempt: the cleaned answer if it is
    well-formed, [None] for either exception. *)
Definition attempt_once (attempt : nat) : option string :=
  match generate_content attempt with
  | ApiError => None
  | Response text =>
      let xml_content := clean text in
      if fromstring_ok xml_content then Some xml_content else None
  end.

(** The loop [for attempt in range(retries)], from the attempt
    [retries - remaining] on. *)
Fixpoint attempts (retries delay remaining calls slept : nat) : run :=
  match remaining with
  | O => Run None calls slept
  | S remaining' =>
      let attempt := retries - remaining in
      match attempt_once attempt with
      | Some xml_content => Run (Some xml_content) (calls + 1) slept
      | None =>
          attempts retries delay remaining' (calls + 1)
            (if Nat.ltb attempt (retries - 1) then slept + delay else slept)
      end
  end.

Definition generate_drawio_xml (retries delay : nat) : run :=
  if key_missing then Run None 0 0
  else if negb configure_ok then Run None 0 0
  else attempts retries delay retries 0 0.

End Generate.

End TfToXmlConverter.

Module Processor.

(** Line 63 of processor.py:
    [response.text.strip().replace("```json", "").replace("```", "").strip()] *)
Definition cleaned_response (text : string) : string :=
  PyStr.strip
    (PySlice.replace "```" ""
       (PySlice.replace "```json" "" (PyStr.strip text))).

End Processor.

(** Answers for running the examples: two that fail, then a fenced
    document. *)
Definition example_answers (attempt : nat) : TfToXmlConverter.api_result :=
  match attempt with
  | 0 => TfToXmlConverter.ApiError
  | 1 => TfToXmlConverter.Response "I cannot draw this."
  | _ => TfToXmlConverter.Response "```xml
<mxfile/>
```
"
  end.

Definition example_fromstring (text : string) : bool :=
  PyText.startswith "<" text.

(** * Properties *)

(** ** The order of Python floats *)

Module FloatOrder.

Ltac split_bools :=
  repeat match goal with b : bool |- _ => destruct b end.

Ltac cmp_cases :=
  change (Pos.compare_cont Eq) with Pos.compare;
  repeat (match goal with
          | |- context [Z.compare ?a ?b] => destruct (Z.compare_spec a b)
          | |- context [Pos.compare ?a ?b] => destruct (Pos.compare_spec a b)
          end; simpl; try subst; try lia; try congruence).

Lemma SFcompare_lt_trans (a b c : spec_float) :
  SFcompare a b = Some Lt -> SFcompare b c = Some Lt -> SFcompare a c = Some Lt.
Proof.
  destruct a as [sa|sa| |sa ma ea], b as [sb|sb| |sb mb eb], c as [sc|sc| |sc mc ec];
    simpl; try congruence; split_bools; try congruence; cmp_cases.
Qed.

Lemma SFcompare_le_le_not_lt (a b c : spec_float) :
  SFleb a b = true -> SFleb b c = true -> SFltb c a = false.
Proof.
  unfold SFleb, SFltb.
  destruct a as [sa|sa| |sa ma ea], b as [sb|sb| |sb mb eb], c as [sc|sc| |sc mc ec];
    simpl; try congruence; split_bools; try congruence; cmp_cases.
Qed.

Lemma SFcompare_le_lt_trans (a b c : spec_float) :
  SFleb a b = true -> SFltb b c = true -> SFltb a c = true.
Proof.
  unfold SFleb, SFltb.
  destruct a as [sa|sa| |sa ma ea], b as [sb|sb| |sb mb eb], c as [sc|sc| |sc mc ec];
    simpl; try congruence; split_bools; try congruence; cmp_cases.
Qed.

Lemma SFcompare_le_trans (a b c : spec_float) :
  SFleb a b = true -> SFleb b c = true -> SFleb a c = true.
Proof.
  unfold SFleb.
  destruct a as [sa|sa| |sa ma ea], b as [sb|sb| |sb mb eb], c as [sc|sc| |sc mc ec];
    simpl; try congruence; split_bools; try congruence; cmp_cases.
Qed.

Lemma SFcompare_add_zero_l (a b : spec_float) (s : bool) :
  SFcompare (SF64add a (S754_zero s)) b = SFcompare a b.
Proof.
  destruct a as [sa|sa| |sa ma ea], b as [sb|sb| |sb mb eb], s; simpl;
    split_bools; reflexivity.
Qed.

Lemma SFcompare_add_zero_r (a b : spec_float) (s : bool) :
  SFcompare b (SF64add a (S754_zero s)) = SFcompare b a.
Proof.
  destruct a as [sa|sa| |sa ma ea], b as [sb|sb| |sb mb eb], s; simpl;
    split_bools; reflexivity.
Qed.

Lemma SFeqb_zero (w : spec_float) :
  SFeqb w (S754_zero false) = true -> exists s, w = S754_zero s.
Proof.
  unfold SFeqb. destruct w as [s|s| |s m e]; simpl; try destruct s; try discriminate.
  all: intros _; eexists; reflexivity.
Qed.

Lemma lt_trans (a b c : float) :
  PyFloat.lt a b = true -> PyFloat.lt b c = true -> PyFloat.lt a c = true.
Proof.
  unfold PyFloat.lt. rewrite !ltb_spec. unfold SFltb.
  destruct (SFcompare (Prim2SF a) (Prim2SF b)) as [[]|] eqn:E1; try discriminate.
  destruct (SFcompare (Prim2SF b) (Prim2SF c)) as [[]|] eqn:E2; try discriminate.
  now rewrite (SFcompare_lt_trans _ _ _ E1 E2).
Qed.

Lemma lt_irrefl (a : float) : PyFloat.lt a a = false.
Proof.
  destruct (PyFloat.lt a a) eqn:E; [|reflexivity].
  unfold PyFloat.lt in E. rewrite ltb_spec in E.
  assert (H : SFleb (Prim2SF a) (Prim2SF a) = true).
  { unfold SFltb in E. unfold SFleb.
    destruct (SFcompare (Prim2SF a) (Prim2SF a)) as [[]|]; congruence. }
  rewrite (SFcompare_le_le_not_lt _ _ _ H H) in E. discriminate.
Qed.

Lemma lt_le (a b : float) : PyFloat.lt a b = true -> PyFloat.le a b = true.
Proof.
  unfold PyFloat.lt, PyFloat.le. rewrite ltb_spec, leb_spec. unfold SFltb, SFleb.
  destruct (SFcompare (Prim2SF a) (Prim2SF b)) as [[]|]; congruence.
Qed.

Lemma le_le_not_lt (a b c : float) :
  PyFloat.le a b = true -> PyFloat.le b c = true -> PyFloat.lt c a = false.
Proof.
  unfold PyFloat.lt, PyFloat.le. rewrite !leb_spec, ltb_spec.
  apply SFcompare_le_le_not_lt.
Qed.

Lemma lt_asym (a b : float) : PyFloat.lt a b = true -> PyFloat.lt b a = false.
Proof.
  intros H. destruct (PyFloat.lt b a) eqn:E; [|reflexivity].
  rewrite <- (lt_irrefl a). symmetry. exact (lt_trans _ _ _ H E).
Qed.

Lemma le_lt_trans (a b c : float) :
  PyFloat.le a b = true -> PyFloat.lt b c = true -> PyFloat.lt a c = true.
Proof.
  unfold PyFloat.lt, PyFloat.le. rewrite !ltb_spec, leb_spec.
  apply SFcompare_le_lt_trans.
Qed.

Lemma lt_not_le (a b : float) : PyFloat.lt a b = true -> PyFloat.le b a = false.
Proof.
  intros H. destruct (PyFloat.le b a) eqn:E; [|reflexivity].
  rewrite <- (lt_irrefl b). symmetry. exact (le_lt_trans _ _ _ E H).
Qed.

Lemma le_trans (a b c : float) :
  PyFloat.le a b = true -> PyFloat.le b c = true -> PyFloat.le a c = true.
Proof.
  unfold PyFloat.le. rewrite !leb_spec. apply SFcompare_le_trans.
Qed.

(** A width or height that compares equal to zero, [0.0] or [-0.0], does
    not move an edge as far as comparisons can tell. *)
Lemma le_add_zero_l (a w b : float) :
  PrimFloat.eqb w PyFloat.zero = true ->
  PyFloat.le (a + w)%float b = PyFloat.le a b.
Proof.
  intros Hw. rewrite eqb_spec in Hw.
  change (Prim2SF PyFloat.zero) with (S754_zero false) in Hw.
  apply SFeqb_zero in Hw. destruct Hw as [s Hs].
  unfold PyFloat.le. rewrite !leb_spec, add_spec, Hs. unfold SFleb.
  now rewrite SFcompare_add_zero_l.
Qed.

Lemma le_add_zero_r (a w b : float) :
  PrimFloat.eqb w PyFloat.zero = true ->
  PyFloat.le b (a + w)%float = PyFloat.le b a.
Proof.
  intros Hw. rewrite eqb_spec in Hw.
  change (Prim2SF PyFloat.zero) with (S754_zero false) in Hw.
  apply SFeqb_zero in Hw. destruct Hw as [s Hs].
  unfold PyFloat.le. rewrite !leb_spec, add_spec, Hs. unfold SFleb.
  now rewrite SFcompare_add_zero_r.
Qed.

End FloatOrder.

(** ** Python strings *)

Module PyStrFacts.
Import PyStr.
Local Open Scope string_scope.

Lemma starts_br_iff s : starts_br s = true <-> exists rest, s = "<br>" ++ rest.
Proof.
  split.
  - destruct s as [|c [|c2 [|c3 [|c4 rest]]]]; simpl; try discriminate.
    rewrite !andb_true_iff, !Ascii.eqb_eq. intros [[[-> ->] ->] ->]. now exists rest.
  - intros [rest ->]. reflexivity.
Qed.

Lemma replace_br_token rest : replace_br ("<br>" ++ rest) = String " " (replace_br rest).
Proof. reflexivity. Qed.

Lemma replace_br_other c s :
  starts_br (String c s) = false -> replace_br (String c s) = String c (replace_br s).
Proof.
  destruct s as [|c2 [|c3 [|c4 rest]]]; try reflexivity.
  simpl. now intros ->.
Qed.

Lemma replace_br_empty s : replace_br s = "" -> s = "".
Proof.
  destruct s as [|c s]; [reflexivity|].
  destruct (starts_br (String c s)) eqn:E.
  - apply starts_br_iff in E. destruct E as [rest ->]. discriminate.
  - rewrite (replace_br_other _ _ E). discriminate.
Qed.

Lemma ends_with_space_cons c s : s <> "" -> ends_with_space (String c s) = ends_with_space s.
Proof. destruct s; [congruence|reflexivity]. Qed.

Lemma ends_with_space_app a b : b <> "" -> ends_with_space (a ++ b) = ends_with_space b.
Proof.
  intros Hb. induction a as [|c a IH]; [reflexivity|].
  change (String c a ++ b) with (String c (a ++ b)).
  rewrite ends_with_space_cons; [assumption|]. destruct a; [assumption|discriminate].
Qed.

(** Replacing the tokens puts whitespace at the front only where the
    text began with whitespace or with a token, and likewise at the end. *)
Lemma replace_br_starts s :
  starts_with_space (replace_br s) = true ->
  starts_with_space s = true \/ starts_br s = true.
Proof.
  destruct s as [|c s]; [discriminate|].
  destruct (starts_br (String c s)) eqn:E; [now right|].
  rewrite (replace_br_other _ _ E). now left.
Qed.

Lemma replace_br_ends_aux n : forall s, String.length s <= n ->
  ends_with_space (replace_br s) = true ->
  ends_with_space s = true \/ exists p, s = p ++ "<br>".
Proof.
  induction n as [|n IH]; intros s Hlen.
  - destruct s; [discriminate|simpl in Hlen; lia].
  - destruct s as [|c s]; [discriminate|].
    destruct (starts_br (String c s)) eqn:E.
    + apply starts_br_iff in E. destruct E as [rest E]. rewrite E.
      rewrite replace_br_token.
      destruct rest as [|c' rest'] eqn:Er; [intros _; right; now exists ""|].
      rewrite <- Er in *.
      assert (Hr : rest <> "") by (rewrite Er; discriminate).
      rewrite ends_with_space_cons.
      2:{ intros H0. apply replace_br_empty in H0. contradiction. }
      intros H. apply IH in H.
      * destruct H as [H|[p ->]].
        -- left. now rewrite ends_with_space_app.
        -- right. exists ("<br>" ++ p). reflexivity.
      * assert (String.length (String c s) = 4 + String.length rest)
          by (rewrite E; reflexivity). lia.
    + rewrite (replace_br_other _ _ E).
      destruct s as [|c' s'] eqn:Es; [intros H; now left|].
      rewrite <- Es in *.
      assert (Hs : s <> "") by (rewrite Es; discriminate).
      rewrite ends_with_space_cons.
      2:{ intros H0. apply replace_br_empty in H0. contradiction. }
      intros H. apply IH in H; [|simpl in Hlen; lia].
      destruct H as [H|[p ->]].
      * left. now rewrite ends_with_space_cons.
      * right. now exists (String c p).
Qed.

Lemma replace_br_ends s :
  ends_with_space (replace_br s) = true ->
  ends_with_space s = true \/ exists p, s = p ++ "<br>".
Proof. apply (replace_br_ends_aux (String.length s)). lia. Qed.

Lemma replace_br_no_token s : ~ has_br s -> replace_br s = s.
Proof.
  induction s as [|c s IH]; intros Hno; [reflexivity|].
  destruct (starts_br (String c s)) eqn:E.
  - apply starts_br_iff in E. destruct E as [rest E]. exfalso. apply Hno.
    exists "", rest. exact E.
  - rewrite (replace_br_other _ _ E). f_equal. apply IH.
    intros [p [q ->]]. apply Hno. now exists (String c p), q.
Qed.

Lemma lstrip_spec s :
  exists l, s = l ++ lstrip s /\ all_space l = true /\
            starts_with_space (lstrip s) = false.
Proof.
  induction s as [|c s (l & E & Hl & Hs)]; [now exists ""|].
  simpl. destruct (isspace c) eqn:Ec.
  - exists (String c l). simpl. rewrite Ec, Hl. repeat split; [now f_equal|assumption].
  - exists "". now repeat split.
Qed.

Lemma rstrip_spec s :
  exists r, s = rstrip s ++ r /\ all_space r = true /\
            ends_with_space (rstrip s) = false.
Proof.
  induction s as [|c s (r & E & Hr & Hs)]; [now exists ""|].
  simpl. destruct (rstrip s) as [|c' r'] eqn:Er.
  - simpl in E. destruct (isspace c) eqn:Ec.
    + exists (String c s). simpl. rewrite Ec. subst s. now repeat split.
    + exists s. simpl. rewrite Ec. subst s. now repeat split.
  - exists r. repeat split; [simpl; now f_equal|assumption|].
    now rewrite ends_with_space_cons.
Qed.

Lemma rstrip_starts s :
  starts_with_space s = false -> starts_with_space (rstrip s) = false.
Proof.
  destruct s as [|c s]; [reflexivity|]. simpl. intros Ec.
  destruct (rstrip s); [now rewrite Ec|assumption].
Qed.

(** [strip] removes whitespace, and only whitespace, from both ends. *)
Lemma strip_spec s :
  (exists l r, s = l ++ strip s ++ r /\ all_space l = true /\ all_space r = true) /\
  trimmed (strip s).
Proof.
  unfold strip. destruct (lstrip_spec s) as (l & El & Hl & Hs).
  destruct (rstrip_spec (lstrip s)) as (r & Er & Hr & He).
  split.
  - exists l, r. repeat split; try assumption. now rewrite <- Er.
  - split; [now apply rstrip_starts|assumption].
Qed.

End PyStrFacts.

(** ** The dictionary *)

Section Dict.

Implicit Types (d : dict) (k : string) (n : node).

Lemma assoc_In {A : Type} (l : list (string * A)) k (v : A) :
  assoc k l = Some v -> In (k, v) l.
Proof.
  induction l as [|[k' v'] l IH]; simpl; [discriminate|].
  destruct (String.eqb_spec k k') as [->|Hne].
  - intros [= ->]. now left.
  - intros H. right. auto.
Qed.

Lemma assoc_None d k : assoc k d = None <-> ~ In k (keys d).
Proof.
  induction d as [|[k' v'] d IH]; simpl; [tauto|].
  destruct (String.eqb_spec k k') as [->|Hne].
  - split; [discriminate|]. intros H. exfalso. apply H. now left.
  - rewrite IH. split; [intros H [E|HI]; [congruence|tauto] | tauto].
Qed.

Lemma assoc_Some_key d k n : assoc k d = Some n -> In k (keys d).
Proof.
  intros H. apply assoc_In in H. now apply (in_map fst) in H.
Qed.

Lemma In_keys_assoc d k : In k (keys d) -> exists n, assoc k d = Some n.
Proof.
  intros H. destruct (assoc k d) as [n|] eqn:E; [now exists n|].
  apply assoc_None in E. contradiction.
Qed.

Lemma In_assoc d k n : NoDup (keys d) -> In (k, n) d -> assoc k d = Some n.
Proof.
  induction d as [|[k' v'] d IH]; simpl; [tauto|].
  intros Hnd [[= -> ->]|HI].
  - now rewrite String.eqb_refl.
  - inversion Hnd as [|? ? Hnot Hnd']; subst.
    destruct (String.eqb_spec k k') as [->|Hne]; [|auto].
    exfalso. apply Hnot. now apply (in_map fst) in HI.
Qed.

Lemma assoc_dict_set d k n k' :
  assoc k' (dict_set d k n) = if String.eqb k' k then Some n else assoc k' d.
Proof.
  induction d as [|[k0 v0] d IH]; simpl.
  - reflexivity.
  - destruct (String.eqb_spec k k0) as [->|Hne]; simpl.
    + destruct (String.eqb_spec k' k0); reflexivity.
    + rewrite IH. destruct (String.eqb_spec k' k0) as [->|Hne'].
      * destruct (String.eqb_spec k0 k); [congruence|reflexivity].
      * reflexivity.
Qed.

Lemma keys_dict_set d k n :
  keys (dict_set d k n) = if mem k (keys d) then keys d else keys d ++ [k].
Proof.
  induction d as [|[k0 v0] d IH]; simpl; [reflexivity|].
  destruct (String.eqb_spec k k0) as [->|Hne]; simpl; [reflexivity|].
  rewrite IH. now destruct (mem k (keys d)).
Qed.

Lemma mem_In k (l : list string) : mem k l = true <-> In k l.
Proof.
  unfold mem. rewrite existsb_exists. split.
  - intros [x [HI E]]. apply String.eqb_eq in E. now subst.
  - intros HI. exists k. split; [assumption|apply String.eqb_refl].
Qed.

Lemma mem_false k (l : list string) : mem k l = false <-> ~ In k l.
Proof.
  rewrite <- mem_In. destruct (mem k l); split; congruence.
Qed.

Lemma NoDup_keys_dict_set d k n : NoDup (keys d) -> NoDup (keys (dict_set d k n)).
Proof.
  intros H. rewrite keys_dict_set. destruct (mem k (keys d)) eqn:E; [assumption|].
  apply mem_false in E. apply NoDup_app; [assumption|repeat constructor; simpl; tauto|].
  intros a Ha [<-|[]]. contradiction.
Qed.

Lemma keys_dict_adjust f k d : keys (dict_adjust f k d) = keys d.
Proof.
  induction d as [|[k0 v0] d IH]; simpl; [reflexivity|].
  destruct (String.eqb k k0); simpl; [reflexivity|now rewrite IH].
Qed.

Lemma assoc_dict_adjust f k d k' :
  assoc k' (dict_adjust f k d) =
  if String.eqb k' k then option_map f (assoc k' d) else assoc k' d.
Proof.
  induction d as [|[k0 v0] d IH]; simpl.
  - now destruct (String.eqb k' k).
  - destruct (String.eqb_spec k k0) as [->|Hne]; simpl.
    + destruct (String.eqb_spec k' k0); reflexivity.
    + rewrite IH. destruct (String.eqb_spec k' k0) as [->|Hne'].
      * destruct (String.eqb_spec k0 k); [congruence|reflexivity].
      * reflexivity.
Qed.

End Dict.

(** ** Pass 1: the loader *)

Section Loader.

Variable py_float : string -> option float.

Lemma node_of_cell_inv cell k n :
  node_of_cell py_float cell = Some (k, n) ->
  get cell "vertex" = Some "1" /\
  PyStr.truthy (get cell "value") = true /\
  get cell "id" = Some k /\ k <> "" /\
  exists g, parse_geometry py_float cell = Some g /\
            n = Node k (cell_label cell) (Some g) [].
Proof.
  unfold node_of_cell, opt_eqb.
  destruct (get cell "vertex") as [v|]; simpl; [|discriminate].
  destruct (String.eqb_spec v "1") as [->|]; simpl; [|discriminate].
  destruct (PyStr.truthy (get cell "value")); [|discriminate].
  destruct (get cell "id") as [[|c i]|]; try discriminate.
  destruct (parse_geometry py_float cell) as [g|]; [|discriminate].
  intros [= <- <-]. repeat split; try discriminate. now exists g.
Qed.

Lemma node_of_cell_intro cell k g :
  get cell "vertex" = Some "1" ->
  PyStr.truthy (get cell "value") = true ->
  get cell "id" = Some k -> k <> "" ->
  parse_geometry py_float cell = Some g ->
  node_of_cell py_float cell = Some (k, Node k (cell_label cell) (Some g) []).
Proof.
  intros Hv Hl Hi Hk Hg. unfold node_of_cell. rewrite Hv, Hl, Hi, Hg. simpl.
  destruct k; [congruence|reflexivity].
Qed.

Lemma pass1_snoc cells cell :
  pass1 py_float (cells ++ [cell]) = pass1_step py_float (pass1 py_float cells) cell.
Proof. unfold pass1. now rewrite fold_left_app. Qed.

Lemma pass1_fresh cells : fresh (pass1 py_float cells).
Proof.
  induction cells as [|cell cells IH] using rev_ind.
  - split; [constructor|discriminate].
  - rewrite pass1_snoc. unfold pass1_step.
    destruct (node_of_cell py_float cell) as [[k n]|] eqn:E; [|assumption].
    destruct IH as [Hnd Hall]. split; [now apply NoDup_keys_dict_set|].
    intros k' n'. rewrite assoc_dict_set.
    destruct (String.eqb_spec k' k) as [->|Hne]; [|apply Hall].
    intros [= <-]. apply node_of_cell_inv in E.
    destruct E as (_ & _ & _ & _ & g & _ & ->). simpl. repeat split. discriminate.
Qed.

(** Every entry of [nodes] is the node some cell of the input made. *)
Lemma pass1_entry cells k n :
  assoc k (pass1 py_float cells) = Some n ->
  exists cell, In cell cells /\ node_of_cell py_float cell = Some (k, n).
Proof.
  induction cells as [|cell cells IH] using rev_ind; [discriminate|].
  rewrite pass1_snoc. unfold pass1_step.
  destruct (node_of_cell py_float cell) as [[k0 n0]|] eqn:E.
  - rewrite assoc_dict_set. destruct (String.eqb_spec k k0) as [->|Hne].
    + intros [= <-]. exists cell. split; [apply in_or_app; right; now left|assumption].
    + intros H. destruct (IH H) as [c [Hc Hn]]. exists c.
      split; [apply in_or_app; now left|assumption].
  - intros H. destruct (IH H) as [c [Hc Hn]]. exists c.
    split; [apply in_or_app; now left|assumption].
Qed.

(** Every cell that makes a node leaves its key in [nodes]. *)
Lemma pass1_key cells cell k n :
  In cell cells -> node_of_cell py_float cell = Some (k, n) ->
  In k (keys (pass1 py_float cells)).
Proof.
  induction cells as [|c cells IH] using rev_ind; [intros []|].
  intros HI E. rewrite pass1_snoc. unfold pass1_step.
  apply in_app_or in HI. destruct HI as [HI|[->|[]]].
  - specialize (IH HI E).
    destruct (node_of_cell py_float c) as [[k0 n0]|]; [|assumption].
    rewrite keys_dict_set. destruct (mem k0 _); [assumption|].
    apply in_or_app. now left.
  - rewrite E. rewrite keys_dict_set.
    destruct (mem k _) eqn:M; [now apply mem_In|].
    apply in_or_app. right. now left.
Qed.

End Loader.

(** ** Pass 2: the containment resolver *)

Lemma geometry_of_append_child d p c k :
  geometry_of (append_child d p c) k = geometry_of d k.
Proof.
  unfold geometry_of, append_child. rewrite assoc_dict_adjust.
  destruct (String.eqb k p); [|reflexivity].
  now destruct (assoc k d).
Qed.

Lemma potential_parents_ext d d' ids c :
  (forall k, geometry_of d k = geometry_of d' k) ->
  potential_parents d ids c = potential_parents d' ids c.
Proof.
  intros H. unfold potential_parents, area_of.
  apply flat_map_ext. intros p. now rewrite !H.
Qed.

Lemma best_parent_ext d d' ids c :
  (forall k, geometry_of d k = geometry_of d' k) ->
  best_parent d ids c = best_parent d' ids c.
Proof.
  intros H. unfold best_parent. now rewrite (potential_parents_ext d d' ids c H).
Qed.

Lemma in_potential_parents d ids c p a :
  In (p, a) (potential_parents d ids c) <->
  In p ids /\ p <> c /\
  is_contained (geometry_of d c) (geometry_of d p) = true /\
  a = area_of d p.
Proof.
  unfold potential_parents. rewrite in_flat_map. split.
  - intros [q [Hq HI]].
    destruct (String.eqb_spec c q) as [->|Hne]; [destruct HI|].
    destruct (is_contained _ _) eqn:E; [|destruct HI].
    destruct HI as [[= -> ->]|[]]. repeat split; auto.
  - intros (Hp & Hne & Hc & ->). exists p. split; [assumption|].
    destruct (String.eqb_spec c p) as [->|_]; [congruence|].
    rewrite Hc. now left.
Qed.

(** [min] returns an item of the list that no item is strictly below. *)
Lemma min_by_area_spec rest : forall best,
  let r := min_by_area best rest in
  (r = best \/ PyFloat.lt (snd r) (snd best) = true) /\
  In r (best :: rest) /\
  forall item, In item rest -> PyFloat.lt (snd item) (snd r) = false.
Proof.
  induction rest as [|item rest IH]; intros best; simpl.
  - repeat split; auto. intros ? [].
  - destruct (PyFloat.lt (snd item) (snd best)) eqn:E.
    + destruct (IH item) as (Hr & HI & Hmin). repeat split.
      * right. destruct Hr as [->|Hr]; [assumption|].
        exact (FloatOrder.lt_trans _ _ _ Hr E).
      * right. exact HI.
      * intros it [<-|Hit]; [|now apply Hmin].
        destruct Hr as [->|Hr]; [apply FloatOrder.lt_irrefl|now apply FloatOrder.lt_asym].
    + destruct (IH best) as (Hr & HI & Hmin). repeat split.
      * exact Hr.
      * destruct HI as [HI|HI]; [now left|right; now right].
      * intros it [<-|Hit]; [|now apply Hmin].
        destruct Hr as [->|Hr]; [assumption|].
        destruct (PyFloat.lt (snd item) (snd (min_by_area best rest))) eqn:E'; [|reflexivity].
        rewrite <- E. symmetry. exact (FloatOrder.lt_trans _ _ _ E' Hr).
Qed.

Lemma min_by_area_least best rest item :
  In item (best :: rest) ->
  PyFloat.lt (snd item) (snd (min_by_area best rest)) = false.
Proof.
  destruct (min_by_area_spec rest best) as (Hr & _ & Hmin).
  intros [<-|HI]; [|now apply Hmin].
  destruct Hr as [->|Hr]; [apply FloatOrder.lt_irrefl|now apply FloatOrder.lt_asym].
Qed.

(** [min] returns the first of the items with the least key: no item
    before it has a key at or below its own, no item after it a key
    strictly below. *)
Lemma min_by_area_first rest : forall best,
  let r := min_by_area best rest in
  exists before after,
    best :: rest = before ++ r :: after /\
    (forall item, In item before -> PyFloat.le (snd item) (snd r) = false) /\
    (forall item, In item after -> PyFloat.lt (snd item) (snd r) = false) /\
    (before = [] \/ PyFloat.lt (snd r) (snd best) = true).
Proof.
  induction rest as [|item rest IH]; intros best; simpl.
  - exists [], []. repeat split; auto; intros ? [].
  - destruct (PyFloat.lt (snd item) (snd best)) eqn:E.
    + destruct (IH item) as (before & after & Eq & Hb & Ha & Hr).
      exists (best :: before), after. split; [simpl; now rewrite Eq|].
      assert (Hlt : PyFloat.lt (snd (min_by_area item rest)) (snd best) = true).
      { destruct Hr as [->|Hr].
        - simpl in Eq. injection Eq as <- _. assumption.
        - exact (FloatOrder.lt_trans _ _ _ Hr E). }
      split; [|split; [assumption|now right]].
      intros it [<-|Hit]; [now apply FloatOrder.lt_not_le|now apply Hb].
    + destruct (IH best) as (before & after & Eq & Hb & Ha & Hr).
      destruct before as [|b0 before'].
      * simpl in Eq. injection Eq as Er <-.
        exists [], (item :: rest). rewrite <- Er.
        split; [reflexivity|]. split; [intros ? []|]. split; [|now left].
        intros it [<-|Hit]; [assumption|]. rewrite Er. now apply Ha.
      * simpl in Eq. injection Eq as <- Eq.
        destruct Hr as [Hr|Hr]; [discriminate|].
        exists (best :: item :: before'), after.
        split; [simpl; do 2 f_equal; exact Eq|].
        split; [|split; [assumption|now right]].
        intros it [<-|[<-|Hit]].
        -- now apply FloatOrder.lt_not_le.
        -- destruct (PyFloat.le (snd item) (snd (min_by_area best rest))) eqn:El;
             [|reflexivity].
           rewrite <- E. symmetry. exact (FloatOrder.le_lt_trans _ _ _ El Hr).
        -- apply Hb. now right.
Qed.

(** The parent picked for [c] is another element, it contains [c], and no
    element other than [c] that contains [c] has a strictly smaller area. *)
Lemma best_parent_spec d ids c p :
  best_parent d ids c = Some p ->
  In p ids /\ p <> c /\
  is_contained (geometry_of d c) (geometry_of d p) = true /\
  forall q, In q ids -> q <> c ->
    is_contained (geometry_of d c) (geometry_of d q) = true ->
    PyFloat.lt (area_of d q) (area_of d p) = false.
Proof.
  unfold best_parent.
  destruct (potential_parents d ids c) as [|b rest] eqn:E; [discriminate|].
  intros [= <-].
  destruct (min_by_area_spec rest b) as (_ & HI & _).
  rewrite <- E in HI.
  destruct (min_by_area b rest) as [p a] eqn:Em.
  apply in_potential_parents in HI. destruct HI as (Hp & Hne & Hc & ->).
  simpl. repeat split; auto.
  intros q Hq Hqc Hcq.
  assert (HI : In (q, area_of d q) (b :: rest)).
  { rewrite <- E. apply in_potential_parents. auto. }
  apply min_by_area_least in HI. now rewrite Em in HI.
Qed.

Lemma best_parent_None d ids c :
  best_parent d ids c = None <->
  forall q, In q ids -> q <> c ->
    is_contained (geometry_of d c) (geometry_of d q) = false.
Proof.
  unfold best_parent. split.
  - destruct (potential_parents d ids c) eqn:E; [|discriminate].
    intros _ q Hq Hne.
    destruct (is_contained (geometry_of d c) (geometry_of d q)) eqn:Hc; [|reflexivity].
    assert (HI : In (q, area_of d q) (potential_parents d ids c))
      by (apply in_potential_parents; auto).
    rewrite E in HI. destruct HI.
  - intros H. destruct (potential_parents d ids c) as [|[p a] rest] eqn:E; [reflexivity|].
    assert (HI : In (p, a) (potential_parents d ids c)) by (rewrite E; now left).
    apply in_potential_parents in HI. destruct HI as (Hp & Hne & Hc & _).
    rewrite (H p Hp Hne) in Hc. discriminate.
Qed.

Lemma pass2_fold d0 todo : forall d,
  (forall k, geometry_of d k = geometry_of d0 k) ->
  let d' := fold_left (pass2_step (keys d0)) todo d in
  keys d' = keys d /\
  forall k, assoc k d' =
    option_map
      (with_children (filter (fun c => opt_eqb (parent_of d0 c) k) todo))
      (assoc k d).
Proof.
  induction todo as [|c todo IH]; intros d Hgeo; simpl.
  - split; [reflexivity|]. intros k. destruct (assoc k d) as [[i l g ch]|]; simpl; [|reflexivity].
    unfold with_children. simpl. now rewrite app_nil_r.
  - unfold pass2_step at 2 4.
    rewrite (best_parent_ext d d0 (keys d0) c Hgeo).
    fold (parent_of d0 c).
    destruct (parent_of d0 c) as [p|] eqn:Ep.
    + destruct (IH (append_child d p c)) as [Hk Ha].
      { intros k. now rewrite geometry_of_append_child. }
      split.
      * rewrite Hk. apply keys_dict_adjust.
      * intros k. rewrite Ha. unfold append_child. rewrite assoc_dict_adjust.
        simpl. rewrite (String.eqb_sym p k).
        destruct (String.eqb k p); [|reflexivity].
        destruct (assoc k d) as [n|]; [|reflexivity].
        simpl. unfold with_children. simpl. now rewrite <- app_assoc.
    + destruct (IH d Hgeo) as [Hk Ha]. split; [assumption|].
      intros k. now rewrite Ha.
Qed.

Lemma keys_pass2 d0 : keys (pass2 d0) = keys d0.
Proof. unfold pass2. now destruct (pass2_fold d0 (keys d0) d0 (fun _ => eq_refl)). Qed.

Lemma assoc_pass2 d0 k :
  assoc k (pass2 d0) =
  option_map
    (with_children (filter (fun c => opt_eqb (parent_of d0 c) k) (keys d0)))
    (assoc k d0).
Proof. unfold pass2. now destruct (pass2_fold d0 (keys d0) d0 (fun _ => eq_refl)). Qed.

Lemma geometry_of_pass2 d0 k : geometry_of (pass2 d0) k = geometry_of d0 k.
Proof.
  unfold geometry_of. rewrite assoc_pass2. now destruct (assoc k d0).
Qed.

Lemma opt_eqb_Some (o : option string) (s : string) :
  opt_eqb o s = true <-> o = Some s.
Proof.
  destruct o as [v|]; simpl; [|split; discriminate].
  rewrite String.eqb_eq. split; congruence.
Qed.

Section Resolver.

Variable d0 : dict.
Hypothesis Hfresh : fresh d0.

(** After pass 2, the children of [p] are the elements whose computed
    parent is [p], in the order of the keys. *)
Lemma pass2_entry p n :
  assoc p (pass2 d0) = Some n ->
  id n = p /\
  children n = filter (fun c => opt_eqb (parent_of d0 c) p) (keys d0) /\
  exists n0, assoc p d0 = Some n0 /\ label n = label n0 /\ geometry n = geometry n0.
Proof.
  rewrite assoc_pass2. destruct (assoc p d0) as [n0|] eqn:E; [|discriminate].
  intros [= <-]. destruct Hfresh as [_ H]. destruct (H p n0 E) as (Hid & Hch & _).
  unfold with_children. simpl. rewrite Hch. repeat split; auto. now exists n0.
Qed.

Lemma assigned_iff p c :
  assigned (pass2 d0) p c <-> In c (keys d0) /\ parent_of d0 c = Some p.
Proof.
  unfold assigned. split.
  - intros [n [Hn HI]]. apply pass2_entry in Hn. destruct Hn as (_ & Hch & _).
    rewrite Hch in HI. apply filter_In in HI. now rewrite opt_eqb_Some in HI.
  - intros [Hc Hp].
    assert (Hin : In p (keys d0)).
    { unfold parent_of in Hp. now apply best_parent_spec in Hp. }
    rewrite <- keys_pass2 in Hin. apply In_keys_assoc in Hin. destruct Hin as [n Hn].
    exists n. split; [assumption|].
    apply pass2_entry in Hn. destruct Hn as (_ & -> & _).
    apply filter_In. now rewrite opt_eqb_Some.
Qed.

Lemma fresh_pass2_NoDup : NoDup (keys (pass2 d0)).
Proof. rewrite keys_pass2. apply Hfresh. Qed.

Lemma in_child_ids c :
  In c (child_ids (pass2 d0)) <-> In c (keys d0) /\ is_some (parent_of d0 c) = true.
Proof.
  unfold child_ids. rewrite in_flat_map. split.
  - intros [[p n] [Hpn HI]]. simpl in HI. apply in_flat_map in HI.
    destruct HI as [r [Hr HI]].
    apply In_assoc in Hpn; [|apply fresh_pass2_NoDup].
    destruct (assoc r (pass2 d0)) as [m|] eqn:Em; [|destruct HI].
    destruct HI as [<-|[]].
    apply pass2_entry in Em. destruct Em as (-> & _).
    assert (Ha : assigned (pass2 d0) p r) by (exists n; auto).
    apply assigned_iff in Ha. destruct Ha as [Hk Hp]. now rewrite Hp.
  - intros [Hc Hp]. destruct (parent_of d0 c) as [p|] eqn:Ep; [|discriminate].
    assert (Ha : assigned (pass2 d0) p c) by (apply assigned_iff; auto).
    destruct Ha as [n [Hn HI]]. exists (p, n). split; [now apply assoc_In|].
    simpl. apply in_flat_map. exists c. split; [assumption|].
    rewrite <- keys_pass2 in Hc. apply In_keys_assoc in Hc. destruct Hc as [m Hm].
    rewrite Hm. apply pass2_entry in Hm. destruct Hm as (-> & _). now left.
Qed.

(** The roots are the elements for which pass 2 found no parent. *)
Lemma hierarchical_tree_pass2 :
  hierarchical_tree (pass2 d0) =
  filter (fun c => negb (is_some (parent_of d0 c))) (keys d0).
Proof.
  unfold hierarchical_tree. rewrite keys_pass2.
  apply filter_ext_in. intros c Hc. f_equal.
  destruct (mem c (child_ids (pass2 d0))) eqn:E.
  - apply mem_In in E. apply in_child_ids in E. symmetry. tauto.
  - apply mem_false in E. rewrite in_child_ids in E.
    destruct (is_some (parent_of d0 c)); [tauto|reflexivity].
Qed.

End Resolver.

(** ** The tree assembler *)

Lemma sequence_map_total {A B : Type} (f : A -> option B) (l : list A) :
  (forall a, In a l -> exists b, f a = Some b) ->
  exists bs, sequence (map f l) = Some bs.
Proof.
  induction l as [|a l IH]; intros H; simpl.
  - now exists [].
  - destruct (H a (or_introl eq_refl)) as [b ->].
    destruct IH as [bs ->]; [intros; apply H; now right|].
    now exists (b :: bs).
Qed.

Lemma sequence_map_inv {A B : Type} (f : A -> option B) (l : list A) : forall bs,
  sequence (map f l) = Some bs -> Forall2 (fun a b => f a = Some b) l bs.
Proof.
  induction l as [|a l IH]; simpl; intros bs.
  - intros [= <-]. constructor.
  - destruct (f a) as [b|] eqn:E; [|discriminate].
    destruct (sequence (map f l)) as [r|]; [|discriminate].
    intros [= <-]. constructor; auto.
Qed.

Lemma clean_node_id fuel d r t :
  (forall k n, assoc k d = Some n -> id n = k) ->
  clean_node fuel d r = Some t -> tree_id t = r.
Proof.
  intros Hid. destruct fuel; simpl; [discriminate|].
  destruct (assoc r d) as [n|] eqn:E; [|discriminate].
  destruct (sequence _); [|discriminate].
  intros [= <-]. simpl. now apply Hid.
Qed.

Lemma clean_tree_ids fuel d l ts :
  (forall k n, assoc k d = Some n -> id n = k) ->
  clean_tree fuel d l = Some ts -> map tree_id ts = l.
Proof.
  intros Hid H. apply sequence_map_inv in H.
  induction H as [|r t l ts Hr _ IH]; simpl; [reflexivity|].
  now rewrite IH, (clean_node_id _ _ _ _ Hid Hr).
Qed.

Section Assembler.

Variable d0 : dict.
Hypothesis Hfresh : fresh d0.

Lemma chain_det c anc1 : chain d0 c anc1 -> forall anc2, chain d0 c anc2 -> anc1 = anc2.
Proof.
  induction 1 as [r Hr Hp|c p anc Hc Hp _ IH]; intros anc2 H2;
    inversion H2; subst; try congruence.
  assert (p = p0) by congruence. subst. f_equal. auto.
Qed.

Lemma chain_incl c anc : chain d0 c anc -> incl (c :: anc) (keys d0).
Proof.
  induction 1 as [r Hr Hp|c p anc Hc Hp _ IH]; intros k [<-|Hk]; auto.
  destruct Hk.
Qed.

Lemma chain_suffix c anc :
  chain d0 c anc -> forall k, In k anc ->
  exists anc', chain d0 k anc' /\ length anc' < length anc.
Proof.
  induction 1 as [r Hr Hp|c p anc Hc Hp Hch IH]; intros k Hk; [destruct Hk|].
  destruct Hk as [<-|Hk].
  - exists anc. split; [assumption|simpl; lia].
  - destruct (IH k Hk) as [anc' [H1 H2]]. exists anc'. split; [assumption|simpl; lia].
Qed.

(** Walking up from an element to a root never meets an element twice. *)
Lemma chain_NoDup c anc : chain d0 c anc -> NoDup (c :: anc).
Proof.
  induction 1 as [r Hr Hp|c p anc Hc Hp Hch IH].
  - constructor; [intros []|constructor].
  - constructor; [|assumption]. intros HI.
    assert (Hfull : chain d0 c (p :: anc)) by (now constructor).
    destruct (chain_suffix _ _ Hfull c HI) as [anc' [H1 H2]].
    rewrite (chain_det _ _ H1 _ Hfull) in H2. lia.
Qed.

Lemma fresh_pass2_id k n : assoc k (pass2 d0) = Some n -> id n = k.
Proof. intros H. now apply (pass2_entry d0 Hfresh) in H. Qed.

(** An element [depth] steps below a root is cleaned with any fuel that
    leaves room for the elements that may still lie below it. *)
Lemma clean_node_total fuel : forall c anc,
  chain d0 c anc ->
  length (keys d0) < fuel + length (c :: anc) ->
  exists t, clean_node fuel (pass2 d0) c = Some t.
Proof.
  induction fuel as [|fuel IH]; intros c anc Hch Hlen.
  - exfalso. pose proof (chain_NoDup _ _ Hch) as Hnd.
    pose proof (NoDup_incl_length Hnd (chain_incl _ _ Hch)). simpl in *. lia.
  - simpl.
    assert (Hc : In c (keys d0)) by (apply (chain_incl _ _ Hch); now left).
    rewrite <- keys_pass2 in Hc. apply In_keys_assoc in Hc. destruct Hc as [n Hn].
    rewrite Hn.
    destruct (sequence_map_total (clean_node fuel (pass2 d0)) (children n)) as [ts ->].
    + intros k Hk.
      assert (Ha : assigned (pass2 d0) c k) by (exists n; auto).
      apply (assigned_iff d0 Hfresh) in Ha. destruct Ha as [Hkin Hp].
      apply (IH k (c :: anc)); [now constructor|simpl in *; lia].
    + eexists; reflexivity.
Qed.

Lemma through_inj tail k k' e :
  through d0 tail k e -> through d0 tail k' e -> k = k'.
Proof.
  intros (pre & anc & Hc & E) (pre' & anc' & Hc' & E').
  rewrite (chain_det _ _ Hc _ Hc') in E. rewrite E in E'.
  change (k :: tail) with ([k] ++ tail) in E'.
  change (k' :: tail) with ([k'] ++ tail) in E'.
  rewrite !app_assoc in E'. apply app_inv_tail in E'.
  now apply app_inj_tail in E'.
Qed.

(** Trees grown from distinct elements that all hang below the same
    [tail] share no id. *)
Lemma NoDup_flat_map_through tail ks ts :
  NoDup ks ->
  Forall2 (fun k t => NoDup (tree_ids t) /\
                      forall e, In e (tree_ids t) -> through d0 tail k e) ks ts ->
  NoDup (flat_map tree_ids ts).
Proof.
  intros Hnd H. induction H as [|k t ks ts [Ht Hthr] Hrest IH]; simpl; [constructor|].
  inversion Hnd as [|? ? Hk Hnd']; subst.
  apply NoDup_app; [assumption|now apply IH|].
  intros e He HI. apply in_flat_map in HI. destruct HI as [t' [Ht' He']].
  assert (Hk' : exists k', In k' ks /\ through d0 tail k' e).
  { clear - Hrest Ht' He'. induction Hrest as [|k0 t0 ks ts [_ H0] _ IH0]; [destruct Ht'|].
    destruct Ht' as [->|Ht'].
    - exists k0. split; [now left|auto].
    - destruct (IH0 Ht') as [k' [Hin Hth]]. exists k'. split; [now right|assumption]. }
  destruct Hk' as [k' [Hin Hth]].
  rewrite (through_inj _ _ _ _ (Hthr e He) Hth) in Hk. contradiction.
Qed.

Lemma NoDup_children p n : assoc p (pass2 d0) = Some n -> NoDup (children n).
Proof.
  intros H. apply (pass2_entry d0 Hfresh) in H. destruct H as (_ & -> & _).
  apply NoDup_filter. apply Hfresh.
Qed.

(** A cleaned subtree holds no id twice, and every id in it hangs below
    the element the subtree was grown from. *)
Lemma clean_node_NoDup fuel : forall c anc t,
  chain d0 c anc ->
  clean_node fuel (pass2 d0) c = Some t ->
  NoDup (tree_ids t) /\
  forall e, In e (tree_ids t) -> through d0 anc c e.
Proof.
  induction fuel as [|fuel IH]; intros c anc t Hch; simpl; [discriminate|].
  destruct (assoc c (pass2 d0)) as [n|] eqn:En; [|discriminate].
  destruct (sequence _) as [ts|] eqn:Ets; [|discriminate].
  intros [= <-]. rewrite (fresh_pass2_id _ _ En). simpl.
  apply sequence_map_inv in Ets.
  assert (Hsub : Forall2 (fun k t => NoDup (tree_ids t) /\
                    forall e, In e (tree_ids t) -> through d0 (c :: anc) k e)
                   (children n) ts).
  { assert (Hk : forall k, In k (children n) -> chain d0 k (c :: anc)).
    { intros k Hk.
      assert (Ha : assigned (pass2 d0) c k) by (exists n; auto).
      apply (assigned_iff d0 Hfresh) in Ha. destruct Ha. now constructor. }
    clear En. induction Ets as [|k t ks ts Hkt _ IHf]; constructor.
    - apply (IH k (c :: anc) t); [apply Hk; now left|assumption].
    - apply IHf. intros k' Hk'. apply Hk. now right. }
  assert (Hbelow : forall e, In e (flat_map tree_ids ts) ->
            exists k, through d0 (c :: anc) k e).
  { clear - Hsub. intros e He. apply in_flat_map in He. destruct He as [t [Ht He]].
    induction Hsub as [|k0 t0 ks ts [_ H0] _ IH0]; [destruct Ht|].
    destruct Ht as [->|Ht]; [exists k0; auto|auto]. }
  split.
  - constructor; [|apply (NoDup_flat_map_through (c :: anc) (children n));
                   [now apply (NoDup_children c)|assumption]].
    intros HI. destruct (Hbelow c HI) as (k & pre & anc' & Hc' & E).
    rewrite (chain_det _ _ Hc' _ Hch) in E.
    apply (f_equal (@length string)) in E. rewrite length_app in E. simpl in E. lia.
  - intros e [<-|He].
    + exists [], anc. split; [assumption|reflexivity].
    + destruct (Hbelow e He) as (k & pre & anc' & Hc' & E).
      exists (pre ++ [k]), anc'. split; [assumption|].
      now rewrite <- app_assoc.
Qed.

(** [clean_tree] on the roots comes to an end: the descent from a root
    is never deeper than the number of elements. *)
Lemma clean_tree_total :
  exists forest,
    clean_tree (length (pass2 d0)) (pass2 d0) (hierarchical_tree (pass2 d0)) = Some forest /\
    map tree_id forest = hierarchical_tree (pass2 d0).
Proof.
  destruct (sequence_map_total (clean_node (length (pass2 d0)) (pass2 d0))
              (hierarchical_tree (pass2 d0))) as [forest Hf].
  - intros r Hr. rewrite (hierarchical_tree_pass2 d0 Hfresh) in Hr.
    apply filter_In in Hr. destruct Hr as [Hr Hp].
    apply (clean_node_total _ r []).
    + constructor; [assumption|]. now destruct (parent_of d0 r).
    + rewrite <- (length_map fst (pass2 d0)). fold (keys (pass2 d0)).
      rewrite keys_pass2. simpl. lia.
  - exists forest. split; [exact Hf|].
    apply (clean_tree_ids _ _ _ _ fresh_pass2_id Hf).
Qed.

Lemma root_chain r :
  In r (hierarchical_tree (pass2 d0)) -> chain d0 r [].
Proof.
  rewrite (hierarchical_tree_pass2 d0 Hfresh). intros Hr.
  apply filter_In in Hr. destruct Hr as [Hr Hp].
  constructor; [assumption|]. now destruct (parent_of d0 r).
Qed.

Lemma NoDup_hierarchical_tree : NoDup (hierarchical_tree (pass2 d0)).
Proof.
  rewrite (hierarchical_tree_pass2 d0 Hfresh). apply NoDup_filter. apply Hfresh.
Qed.

(** No id occurs twice in the assembled forest: [clean_tree] meets every
    node it visits for the first time, with its geometry still there to
    delete. *)
Lemma forest_ids_NoDup forest :
  resolve_and_assemble d0 = Some forest -> NoDup (forest_ids forest).
Proof.
  unfold resolve_and_assemble, clean_tree. cbv zeta. intros H.
  apply sequence_map_inv in H.
  apply (NoDup_flat_map_through [] (hierarchical_tree (pass2 d0)));
    [apply NoDup_hierarchical_tree|].
  assert (Hr : forall r, In r (hierarchical_tree (pass2 d0)) -> chain d0 r [])
    by apply root_chain.
  induction H as [|r t rs ts Hrt _ IH]; constructor.
  - exact (clean_node_NoDup _ r [] t (Hr r (or_introl eq_refl)) Hrt).
  - apply IH. intros r' Hr'. apply Hr. now right.
Qed.

(** A cleaned subtree holds every element that hangs below the element
    it was grown from. *)
Lemma clean_node_complete pre : forall fuel c anc t e anc',
  clean_node fuel (pass2 d0) c = Some t ->
  chain d0 e anc' -> e :: anc' = pre ++ c :: anc ->
  In e (tree_ids t).
Proof.
  induction pre as [|k pre IH] using rev_ind; intros fuel c anc t e anc' Ht Hch E.
  - simpl in E. injection E as -> _.
    destruct fuel; simpl in Ht; [discriminate|].
    destruct (assoc c (pass2 d0)) as [n|] eqn:En; [|discriminate].
    destruct (sequence _); [|discriminate]. injection Ht as <-.
    rewrite (fresh_pass2_id _ _ En). now left.
  - rewrite <- app_assoc in E. simpl in E.
    assert (Hk : exists anck, chain d0 k anck /\ anck = c :: anc /\
                              In k (keys d0)).
    { clear - Hch E. revert e anc' Hch E.
      induction pre as [|q pre IHp]; intros e anc' Hch E; simpl in E.
      - injection E as -> ->. inversion Hch; subst.
        exists (c :: anc). auto.
      - injection E as -> ->. inversion Hch; subst.
        + destruct pre; discriminate.
        + destruct pre as [|q' pre']; simpl in *.
          * match goal with H : _ :: _ = _ :: _ |- _ => injection H as -> -> end.
            eapply IHp; [eassumption|reflexivity].
          * match goal with H : _ :: _ = _ :: _ |- _ => injection H as -> -> end.
            eapply IHp; [eassumption|reflexivity]. }
    destruct Hk as (anck & Hck & -> & Hkin).
    inversion Hck as [|? ? ? _ Hpk Hcc]; subst.
    destruct fuel; simpl in Ht; [discriminate|].
    destruct (assoc c (pass2 d0)) as [n|] eqn:En; [|discriminate].
    destruct (sequence _) as [ts|] eqn:Ets; [|discriminate]. injection Ht as <-.
    simpl. right. apply in_flat_map.
    assert (Hkc : In k (children n)).
    { assert (Ha : assigned (pass2 d0) c k) by (apply (assigned_iff d0 Hfresh); auto).
      destruct Ha as [n' [Hn' HI]]. congruence. }
    apply sequence_map_inv in Ets.
    assert (Htk : exists tk, In tk ts /\ clean_node fuel (pass2 d0) k = Some tk).
    { clear - Ets Hkc. induction Ets as [|k0 t0 ks ts Hkt _ IHf]; [destruct Hkc|].
      destruct Hkc as [->|Hkc].
      - exists t0. split; [now left|assumption].
      - destruct (IHf Hkc) as [tk [H1 H2]]. exists tk. split; [now right|assumption]. }
    destruct Htk as (tk & Htk & Hclean). exists tk. split; [assumption|].
    exact (IH fuel k (c :: anc) tk e anc' Hclean Hch E).
Qed.

(** The assembled forest holds exactly the elements from which walking
    up the computed parents comes to a root. *)
Lemma forest_ids_chain forest e :
  resolve_and_assemble d0 = Some forest ->
  (In e (forest_ids forest) <-> exists anc, chain d0 e anc).
Proof.
  unfold resolve_and_assemble, clean_tree. cbv zeta. intros H.
  apply sequence_map_inv in H. split.
  - intros He. apply in_flat_map in He. destruct He as [t [Ht He]].
    assert (Hr : forall r, In r (hierarchical_tree (pass2 d0)) -> chain d0 r [])
      by apply root_chain.
    induction H as [|r t0 rs ts Hrt _ IH]; [destruct Ht|].
    destruct Ht as [->|Ht].
    + destruct (clean_node_NoDup _ r [] t (Hr r (or_introl eq_refl)) Hrt) as [_ Hth].
      destruct (Hth e He) as (pre & anc & Hch & _). now exists anc.
    + apply IH; [assumption|]. intros r' Hr'. apply Hr. now right.
  - intros [anc Hch].
    assert (Hroot : exists pre r, e :: anc = pre ++ [r] /\
                                  In r (hierarchical_tree (pass2 d0))).
    { clear H. induction Hch as [r Hr Hp|c p anc Hc Hp Hch IH].
      - exists [], r. split; [reflexivity|].
        rewrite (hierarchical_tree_pass2 d0 Hfresh). apply filter_In.
        split; [assumption|]. now rewrite Hp.
      - destruct IH as (pre & r & E & Hr). exists (c :: pre), r.
        split; [simpl; now rewrite E|assumption]. }
    destruct Hroot as (pre & r & E & Hr).
    apply in_flat_map.
    assert (Ht : exists t, In t forest /\
              clean_node (length (pass2 d0)) (pass2 d0) r = Some t).
    { clear - H Hr. induction H as [|r0 t0 rs ts Hrt _ IH]; [destruct Hr|].
      destruct Hr as [->|Hr].
      - exists t0. split; [now left|assumption].
      - destruct (IH Hr) as [t [H1 H2]]. exists t. split; [now right|assumption]. }
    destruct Ht as (t & Ht & Hclean). exists t. split; [assumption|].
    exact (clean_node_complete pre _ r [] t e anc Hclean Hch E).
Qed.

End Assembler.

(** * The specified properties *)

Lemma is_contained_contains (gb ga : geometry_t) :
  is_contained (Some gb) (Some ga) = true <-> contains ga gb.
Proof.
  unfold is_contained, contains. rewrite !andb_true_iff. tauto.
Qed.

Lemma is_contained_Some (ob oa : option geometry_t) :
  is_contained ob oa = true ->
  exists gb ga, ob = Some gb /\ oa = Some ga /\ contains ga gb.
Proof.
  destruct ob as [gb|], oa as [ga|]; try discriminate.
  intros H. exists gb, ga. repeat split; try reflexivity; now apply is_contained_contains.
Qed.

Lemma geometry_of_key d k g : geometry_of d k = Some g -> In k (keys d).
Proof.
  unfold geometry_of. destruct (assoc k d) as [n|] eqn:E; [|discriminate].
  intros _. now apply assoc_Some_key in E.
Qed.

Section Claims.

Variable py_float : string -> option float.

(** ** Containment resolver *)

(** C1 (containment correctness).  Whenever pass 2 makes [a] the parent of
    [b], [a] is another element than [b], the box of [a] contains the box
    of [b] under the inclusive-boundary predicate, and no element other
    than [b] whose box contains the box of [b] has a strictly smaller
    area than [a]. *)
Theorem containment_correctness (cells : list element) (a b : string) :
  assigned (pass2 (pass1 py_float cells)) a b ->
  a <> b /\
  exists ga gb,
    geometry_of (pass1 py_float cells) a = Some ga /\
    geometry_of (pass1 py_float cells) b = Some gb /\
    contains ga gb /\
    forall c gc,
      c <> b -> geometry_of (pass1 py_float cells) c = Some gc ->
      contains gc gb -> PyFloat.lt (area gc) (area ga) = false.
Proof.
  intros Ha. apply (assigned_iff _ (pass1_fresh py_float cells)) in Ha.
  destruct Ha as [Hb Hp]. apply best_parent_spec in Hp.
  destruct Hp as (Hin & Hne & Hc & Hmin). split; [assumption|].
  destruct (is_contained_Some _ _ Hc) as (gb & ga & Egb & Ega & Hcont).
  exists ga, gb. split; [assumption|]. split; [assumption|]. split; [assumption|].
  intros c gc Hcb Egc Hcc.
  specialize (Hmin c (geometry_of_key _ _ _ Egc) Hcb).
  unfold area_of in Hmin. rewrite Egb, Egc, Ega in Hmin.
  apply Hmin. now apply is_contained_contains.
Qed.

(** C7 (root invariant).  An element whose box is contained in the box of
    no other element is a root of the assembled forest, and the forest is
    assembled. *)
Theorem root_invariant (cells : list element) (b : string) (gb : geometry_t) :
  geometry_of (pass1 py_float cells) b = Some gb ->
  (forall a ga, a <> b -> geometry_of (pass1 py_float cells) a = Some ga ->
     ~ contains ga gb) ->
  exists forest,
    resolve_and_assemble (pass1 py_float cells) = Some forest /\
    In b (map tree_id forest).
Proof.
  intros Egb Hfree.
  destruct (clean_tree_total _ (pass1_fresh py_float cells)) as [forest [Hf Hids]].
  exists forest. split; [exact Hf|]. rewrite Hids.
  rewrite (hierarchical_tree_pass2 _ (pass1_fresh py_float cells)).
  apply filter_In. split; [now apply geometry_of_key in Egb|].
  assert (Hp : parent_of (pass1 py_float cells) b = None).
  { apply best_parent_None. intros a Ha Hne.
    destruct (is_contained _ _) eqn:Hc; [|reflexivity].
    destruct (is_contained_Some _ _ Hc) as (gb' & ga & E1 & E2 & Hcont).
    rewrite Egb in E1. injection E1 as <-.
    destruct (Hfree a ga Hne E2 Hcont). }
  now rewrite Hp.
Qed.

End Claims.

Lemma containment_correctness_witness :
  assigned (pass2 (pass1 decimal_float nested_cells)) "A" "B" /\
  "A" <> "B" /\
  exists ga gb,
    geometry_of (pass1 decimal_float nested_cells) "A" = Some ga /\
    geometry_of (pass1 decimal_float nested_cells) "B" = Some gb /\
    contains ga gb /\
    forall c gc,
      c <> "B" -> geometry_of (pass1 decimal_float nested_cells) c = Some gc ->
      contains gc gb -> PyFloat.lt (area gc) (area ga) = false.
Proof.
  assert (H : assigned (pass2 (pass1 decimal_float nested_cells)) "A" "B").
  { eexists. split; [vm_compute; reflexivity|]. simpl. now left. }
  split; [exact H|].
  exact (containment_correctness decimal_float nested_cells "A" "B" H).
Defined.

Lemma root_invariant_witness :
  exists gb,
    geometry_of (pass1 decimal_float nested_cells) "C" = Some gb /\
    (forall a ga, a <> "C" ->
       geometry_of (pass1 decimal_float nested_cells) a = Some ga ->
       ~ contains ga gb) /\
    exists forest,
      resolve_and_assemble (pass1 decimal_float nested_cells) = Some forest /\
      In "C" (map tree_id forest).
Proof.
  eexists.
  assert (Hg : geometry_of (pass1 decimal_float nested_cells) "C" = Some _)
    by (vm_compute; reflexivity).
  assert (Hfree : forall a ga, a <> "C" ->
            geometry_of (pass1 decimal_float nested_cells) a = Some ga ->
            ~ contains ga (Geometry 1000 1000 50 50)).
  { intros a ga Hne Ea Hc. run_pass1 nested_cells.
    unfold geometry_of in Ea. cbn [assoc] in Ea.
    destruct (String.eqb_spec a "A"); [injection Ea as <-; refute_contains Hc|].
    destruct (String.eqb_spec a "B"); [injection Ea as <-; refute_contains Hc|].
    destruct (String.eqb_spec a "C"); [contradiction|discriminate]. }
  split; [exact Hg|]. split; [exact Hfree|].
  exact (root_invariant decimal_float nested_cells "C" _ Hg Hfree).
Defined.

Section LoaderClaims.

Variable py_float : string -> option float.

Lemma truthy_has_label cell :
  PyStr.truthy (get cell "value") = true <-> has_label cell.
Proof.
  unfold has_label. destruct (get cell "value") as [[|c w]|]; simpl.
  - split; [discriminate|]. intros (u & [= <-] & H). congruence.
  - split; [|reflexivity]. intros _. eexists. split; [reflexivity|discriminate].
  - split; [discriminate|]. intros (u & H & _). discriminate.
Qed.

Lemma float_attr_coordinate geo k v :
  float_attr py_float geo k = Some v <-> coordinate py_float geo k v.
Proof.
  unfold float_attr, coordinate. destruct (get geo k); [tauto|].
  split; congruence.
Qed.

Lemma parse_geometry_Some cell g :
  parse_geometry py_float cell = Some g <->
  exists geo, find cell "mxGeometry" = Some geo /\
    coordinate py_float geo "x" (x g) /\ coordinate py_float geo "y" (y g) /\
    coordinate py_float geo "width" (width g) /\
    coordinate py_float geo "height" (height g).
Proof.
  unfold parse_geometry. split.
  - destruct (find cell "mxGeometry") as [geo|]; [|discriminate].
    destruct (float_attr py_float geo "x") as [vx|] eqn:Ex; [|discriminate].
    destruct (float_attr py_float geo "y") as [vy|] eqn:Ey; [|discriminate].
    destruct (float_attr py_float geo "width") as [vw|] eqn:Ew; [|discriminate].
    destruct (float_attr py_float geo "height") as [vh|] eqn:Eh; [|discriminate].
    intros [= <-]. exists geo. simpl. rewrite <- !float_attr_coordinate. auto.
  - intros (geo & -> & Hx & Hy & Hw & Hh).
    apply float_attr_coordinate in Hx, Hy, Hw, Hh. rewrite Hx, Hy, Hw, Hh.
    now destruct g.
Qed.

Lemma float_attr_total geo k :
  (forall s, get geo k = Some s -> py_float s <> None) ->
  exists v, float_attr py_float geo k = Some v.
Proof.
  unfold float_attr. intros H. destruct (get geo k) as [s|]; [|now eexists].
  specialize (H s eq_refl). destruct (py_float s) as [v|]; [now exists v|congruence].
Qed.

Lemma float_attr_numeric geo k v s :
  float_attr py_float geo k = Some v -> get geo k = Some s -> py_float s <> None.
Proof. unfold float_attr. intros H E. rewrite E in H. congruence. Qed.

Lemma parse_geometry_numeric cell :
  parse_geometry py_float cell <> None <-> has_numeric_geometry py_float cell.
Proof.
  unfold has_numeric_geometry. split.
  - destruct (parse_geometry py_float cell) as [g|] eqn:E; [intros _|congruence].
    unfold parse_geometry in E.
    destruct (find cell "mxGeometry") as [geo|]; [|discriminate].
    exists geo. split; [reflexivity|].
    destruct (float_attr py_float geo "x") eqn:Ex; [|discriminate].
    destruct (float_attr py_float geo "y") eqn:Ey; [|discriminate].
    destruct (float_attr py_float geo "width") eqn:Ew; [|discriminate].
    destruct (float_attr py_float geo "height") eqn:Eh; [|discriminate].
    intros k s [<-|[<-|[<-|[<-|[]]]]]; eauto using float_attr_numeric.
  - intros (geo & Hf & Hnum). unfold parse_geometry. rewrite Hf.
    destruct (float_attr_total geo "x") as [vx ->];
      [intros s; apply Hnum; simpl; auto|].
    destruct (float_attr_total geo "y") as [vy ->];
      [intros s; apply Hnum; simpl; auto|].
    destruct (float_attr_total geo "width") as [vw ->];
      [intros s; apply Hnum; simpl; auto|].
    destruct (float_attr_total geo "height") as [vh ->];
      [intros s; apply Hnum; simpl; auto 6|].
    discriminate.
Qed.

Lemma node_of_cell_iff cell :
  node_of_cell py_float cell <> None <->
  marked_vertex cell /\ has_label cell /\ has_id cell /\
  has_numeric_geometry py_float cell.
Proof.
  rewrite <- truthy_has_label, <- parse_geometry_numeric. split.
  - destruct (node_of_cell py_float cell) as [[k n]|] eqn:E; [intros _|congruence].
    apply node_of_cell_inv in E. destruct E as (Hv & Hl & Hi & Hk & g & Hg & _).
    repeat split; try assumption; [now exists k|congruence].
  - intros (Hv & Hl & (i & Hi & Hne) & Hg).
    destruct (parse_geometry py_float cell) as [g|] eqn:Eg; [|congruence].
    now rewrite (node_of_cell_intro py_float cell i g Hv Hl Hi Hne Eg).
Qed.

Lemma assoc_pass2_Some d0 k n :
  assoc k (pass2 d0) = Some n ->
  exists n0, assoc k d0 = Some n0 /\ label n = label n0.
Proof.
  rewrite assoc_pass2. destruct (assoc k d0) as [n0|]; [|discriminate].
  intros [= <-]. now exists n0.
Qed.

Lemma pass3_resolves cells0 cells conn :
  In conn (pass3 (pass2 (pass1 py_float cells0)) cells) <->
  exists cell ns nt,
    In cell cells /\ get cell "edge" = Some "1" /\
    get cell "source" = Some (source_id conn) /\
    get cell "target" = Some (target_id conn) /\
    assoc (source_id conn) (pass1 py_float cells0) = Some ns /\
    assoc (target_id conn) (pass1 py_float cells0) = Some nt /\
    source_label conn = label ns /\ target_label conn = label nt.
Proof.
  unfold pass3. rewrite in_flat_map. split.
  - intros [cell [Hc HI]]. unfold edge_of_cell in HI.
    destruct (opt_eqb (get cell "edge") "1") eqn:Ee; [|destruct HI].
    apply opt_eqb_Some in Ee.
    destruct (get cell "source") as [s|] eqn:Es; [|destruct HI].
    destruct (get cell "target") as [t|] eqn:Et; [|destruct HI].
    destruct (assoc s (pass2 _)) as [ns|] eqn:Ens; [|destruct HI].
    destruct (assoc t (pass2 _)) as [nt|] eqn:Ent; [|destruct HI].
    destruct HI as [<-|[]]. simpl.
    apply assoc_pass2_Some in Ens, Ent.
    destruct Ens as (ns0 & Hs & Ls), Ent as (nt0 & Ht & Lt).
    exists cell, ns0, nt0. repeat split; assumption.
  - intros (cell & ns & nt & Hc & He & Hs & Ht & Hns & Hnt & Ls & Lt).
    exists cell. split; [assumption|]. unfold edge_of_cell.
    rewrite He, Hs, Ht. simpl. rewrite !assoc_pass2, Hns, Hnt. simpl.
    left. destruct conn; simpl in *. congruence.
Qed.

(** ** Diagram loader *)

(** C3, as the code has it.  A raw cell becomes an Element exactly when it
    is marked as a vertex, carries a non-empty label and a non-empty id,
    and has a geometry record whose coordinates are all numeric; the
    Element is stored in [nodes] under the id of the cell; a cell that
    fails a condition leaves [nodes] as it was; and an id that no
    qualifying cell carries is the source or target of no emitted
    connection. *)
Theorem loader_accepts_iff (cell : element) :
  (node_of_cell py_float cell <> None <->
   marked_vertex cell /\ has_label cell /\ has_id cell /\
   has_numeric_geometry py_float cell) /\
  (forall k n, node_of_cell py_float cell = Some (k, n) ->
     get cell "id" = Some k /\
     forall nodes, assoc k (pass1_step py_float nodes cell) = Some n) /\
  (node_of_cell py_float cell = None ->
   forall nodes, pass1_step py_float nodes cell = nodes) /\
  (forall cells i,
     (forall c, In c cells -> get c "id" = Some i -> node_of_cell py_float c = None) ->
     forall conn, In conn (pass3 (pass2 (pass1 py_float cells)) cells) ->
       source_id conn <> i /\ target_id conn <> i).
Proof.
  split; [apply node_of_cell_iff|]. split; [|split].
  - intros k n E. split; [now apply node_of_cell_inv in E|].
    intros nodes. unfold pass1_step. now rewrite E, assoc_dict_set, String.eqb_refl.
  - intros E nodes. unfold pass1_step. now rewrite E.
  - intros cells i Hnone conn Hconn. apply pass3_resolves in Hconn.
    destruct Hconn as (_ & ns & nt & _ & _ & _ & _ & Hns & Hnt & _).
    split; intros <-.
    + apply pass1_entry in Hns. destruct Hns as (c & Hc & E).
      pose proof (node_of_cell_inv _ _ _ _ E) as (_ & _ & Hid & _).
      rewrite (Hnone c Hc Hid) in E. discriminate.
    + apply pass1_entry in Hnt. destruct Hnt as (c & Hc & E).
      pose proof (node_of_cell_inv _ _ _ _ E) as (_ & _ & Hid & _).
      rewrite (Hnone c Hc Hid) in E. discriminate.
Qed.

End LoaderClaims.

(** C3, as the claim words it, fails: a vertex cell with a label and a
    numeric geometry, and no id, becomes no Element. *)
Lemma anonymous_vertex_is_dropped :
  marked_vertex anonymous_cell /\ has_label anonymous_cell /\
  has_numeric_geometry decimal_float anonymous_cell /\
  node_of_cell decimal_float anonymous_cell = None.
Proof.
  split; [reflexivity|]. split.
  { exists "Box". split; [reflexivity|discriminate]. }
  split; [|reflexivity].
  eexists. split; [reflexivity|].
  intros k s [<-|[<-|[<-|[<-|[]]]]]; intros [= <-]; discriminate.
Qed.

Section LabelClaims.

Variable py_float : string -> option float.

(** C4, as the code has it.  The label of an Element is the value of the
    cell it was made from, with whitespace trimmed at both ends and then
    every [<br>] replaced by one space, and nothing else done to it: a
    trimmed value without the token is the label as it is.  The label
    begins with whitespace only when the trimmed value begins with the
    token, and ends with whitespace only when the trimmed value ends with
    it. *)
Theorem label_normalization (cells : list element) (k : string) (n : node) :
  assoc k (pass2 (pass1 py_float cells)) = Some n ->
  exists cell v,
    In cell cells /\ get cell "id" = Some k /\ get cell "value" = Some v /\
    label n = PyStr.replace_br (PyStr.strip v) /\
    (exists l r, v = (l ++ PyStr.strip v ++ r)%string /\
                 all_space l = true /\ all_space r = true) /\
    trimmed (PyStr.strip v) /\
    (~ has_br (PyStr.strip v) -> label n = PyStr.strip v) /\
    (PyStr.starts_with_space (label n) = true ->
     PyStr.starts_br (PyStr.strip v) = true) /\
    (PyStr.ends_with_space (label n) = true ->
     exists p, PyStr.strip v = (p ++ "<br>")%string).
Proof.
  intros Hn. apply assoc_pass2_Some in Hn. destruct Hn as (n0 & Hn0 & Hl).
  apply pass1_entry in Hn0. destruct Hn0 as (cell & Hc & E).
  apply node_of_cell_inv in E. destruct E as (_ & Ht & Hid & _ & g & _ & ->).
  simpl in Hl. unfold cell_label in Hl.
  destruct (get cell "value") as [v|] eqn:Ev; [|discriminate].
  exists cell, v. destruct (PyStrFacts.strip_spec v) as [Hdec [Hs He]].
  split; [assumption|]. split; [assumption|]. split; [assumption|].
  split; [assumption|]. split; [assumption|]. split; [now split|].
  rewrite Hl. split; [apply PyStrFacts.replace_br_no_token|]. split.
  - intros H. apply PyStrFacts.replace_br_starts in H.
    destruct H as [H|H]; [congruence|assumption].
  - intros H. apply PyStrFacts.replace_br_ends in H.
    destruct H as [H|H]; [congruence|assumption].
Qed.

(** ** Geometry defaults *)

(** C10.  In a cell with a geometry record whose present coordinates are
    all numeric, [parse_geometry] yields a box in which every absent
    coordinate is 0.0 and every present one is what [float] reads; the
    cell, if it is a labelled vertex with an id, becomes an Element that
    carries this box into containment resolution. *)
Theorem missing_coordinates_default_to_zero (cell geo : element) :
  find cell "mxGeometry" = Some geo ->
  (forall k s, In k ["x"; "y"; "width"; "height"] ->
     get geo k = Some s -> py_float s <> None) ->
  exists g,
    parse_geometry py_float cell = Some g /\
    coordinate py_float geo "x" (x g) /\
    coordinate py_float geo "y" (y g) /\
    coordinate py_float geo "width" (width g) /\
    coordinate py_float geo "height" (height g) /\
    forall i, marked_vertex cell -> has_label cell ->
      get cell "id" = Some i -> i <> "" ->
      node_of_cell py_float cell = Some (i, Node i (cell_label cell) (Some g) []) /\
      forall nodes, geometry_of (pass1_step py_float nodes cell) i = Some g.
Proof.
  intros Hf Hnum.
  assert (Hg : parse_geometry py_float cell <> None).
  { apply parse_geometry_numeric. now exists geo. }
  destruct (parse_geometry py_float cell) as [g|] eqn:Eg; [|congruence].
  exists g. split; [reflexivity|].
  apply parse_geometry_Some in Eg. destruct Eg as (geo' & Hf' & Hx & Hy & Hw & Hh).
  assert (geo' = geo) by congruence. subst geo'.
  split; [assumption|]. split; [assumption|]. split; [assumption|].
  split; [assumption|].
  intros i Hv Hl Hi Hne. apply truthy_has_label in Hl.
  assert (Eg : parse_geometry py_float cell = Some g).
  { apply parse_geometry_Some. exists geo. auto. }
  pose proof (node_of_cell_intro py_float cell i g Hv Hl Hi Hne Eg) as E.
  split; [exact E|]. intros nodes. unfold pass1_step, geometry_of.
  rewrite E, assoc_dict_set, String.eqb_refl. reflexivity.
Qed.

End LabelClaims.

(** C4, as the claim words it, fails: the value [<br>A] has nothing to
    trim, and its label is [ A], which begins with a space. *)
Lemma label_may_begin_with_space :
  exists n,
    assoc "X" (pass2 (pass1 decimal_float br_cells)) = Some n /\
    label n = " A" /\
    PyStr.starts_with_space (label n) = true.
Proof.
  eexists. split; [vm_compute; reflexivity|]. split; reflexivity.
Qed.

Lemma label_normalization_witness :
  exists n,
    assoc "B" (pass2 (pass1 decimal_float nested_cells)) = Some n /\
    label n = "Box B" /\
    exists cell v,
      In cell nested_cells /\ get cell "id" = Some "B" /\ get cell "value" = Some v /\
      label n = PyStr.replace_br (PyStr.strip v) /\
      (exists l r, v = (l ++ PyStr.strip v ++ r)%string /\
                   all_space l = true /\ all_space r = true) /\
      trimmed (PyStr.strip v) /\
      (~ has_br (PyStr.strip v) -> label n = PyStr.strip v) /\
      (PyStr.starts_with_space (label n) = true ->
       PyStr.starts_br (PyStr.strip v) = true) /\
      (PyStr.ends_with_space (label n) = true ->
       exists p, PyStr.strip v = (p ++ "<br>")%string).
Proof.
  eexists.
  assert (H : assoc "B" (pass2 (pass1 decimal_float nested_cells)) = Some _)
    by (vm_compute; reflexivity).
  split; [exact H|]. split; [reflexivity|].
  exact (label_normalization decimal_float nested_cells "B" _ H).
Defined.

Lemma missing_coordinates_default_to_zero_witness :
  exists geo,
    find sparse_cell "mxGeometry" = Some geo /\
    (forall k s, In k ["x"; "y"; "width"; "height"] ->
       get geo k = Some s -> decimal_float s <> None) /\
    exists g,
      parse_geometry decimal_float sparse_cell = Some g /\
      coordinate decimal_float geo "x" (x g) /\
      coordinate decimal_float geo "y" (y g) /\
      coordinate decimal_float geo "width" (width g) /\
      coordinate decimal_float geo "height" (height g) /\
      forall i, marked_vertex sparse_cell -> has_label sparse_cell ->
        get sparse_cell "id" = Some i -> i <> "" ->
        node_of_cell decimal_float sparse_cell =
          Some (i, Node i (cell_label sparse_cell) (Some g) []) /\
        forall nodes,
          geometry_of (pass1_step decimal_float nodes sparse_cell) i = Some g.
Proof.
  eexists.
  assert (Hf : find sparse_cell "mxGeometry" = Some _) by reflexivity.
  assert (Hnum : forall k s, In k ["x"; "y"; "width"; "height"] ->
            get (Element "mxGeometry" [("width", "30"); ("as", "geometry")] []) k = Some s ->
            decimal_float s <> None).
  { intros k s [<-|[<-|[<-|[<-|[]]]]]; intros [= <-]; discriminate. }
  split; [exact Hf|]. split; [exact Hnum|].
  exact (missing_coordinates_default_to_zero decimal_float sparse_cell _ Hf Hnum).
Defined.

Section DocumentClaims.

Variable py_float : string -> option float.

Lemma parse_Root root g :
  find_graph_model_root root = Some g ->
  exists forest,
    resolve_and_assemble (pass1 py_float (findall g "mxCell")) = Some forest /\
    parse_drawio_xml_v3 py_float (Root root) =
      match find root "diagram" with
      | None => Raise AttributeError
      | Some diagram =>
          Return
            (OutputSchema "3.0"
               (match get diagram "name" with
                | Some name => name
                | None => "Untitled"
                end)
               forest
               (pass3 (pass2 (pass1 py_float (findall g "mxCell")))
                  (findall g "mxCell")))
      end.
Proof.
  intros Hg.
  destruct (clean_tree_total _ (pass1_fresh py_float (findall g "mxCell")))
    as [forest [Hf _]].
  exists forest. split; [exact Hf|].
  unfold parse_drawio_xml_v3. rewrite Hg. cbv zeta. now rewrite Hf.
Qed.

(** ** Tree assembler *)

(** C5 (connection filtering).  The emitted connections are exactly those
    of the cells marked as an edge whose source and target are both keys
    of [nodes], with the labels of the two Elements; such a cell emits
    that one connection, and a cell whose source or target does not
    resolve emits nothing. *)
Theorem connection_filtering (cells : list element) :
  (forall conn,
     In conn (pass3 (pass2 (pass1 py_float cells)) cells) <->
     exists cell ns nt,
       In cell cells /\ get cell "edge" = Some "1" /\
       get cell "source" = Some (source_id conn) /\
       get cell "target" = Some (target_id conn) /\
       assoc (source_id conn) (pass1 py_float cells) = Some ns /\
       assoc (target_id conn) (pass1 py_float cells) = Some nt /\
       source_label conn = label ns /\ target_label conn = label nt) /\
  (forall cell s t ns nt,
     get cell "edge" = Some "1" ->
     get cell "source" = Some s -> get cell "target" = Some t ->
     assoc s (pass1 py_float cells) = Some ns ->
     assoc t (pass1 py_float cells) = Some nt ->
     edge_of_cell (pass2 (pass1 py_float cells)) cell =
       [Connection s (label ns) t (label nt)]) /\
  (forall cell,
     (forall s t, get cell "source" = Some s -> get cell "target" = Some t ->
        assoc s (pass1 py_float cells) = None \/
        assoc t (pass1 py_float cells) = None) ->
     edge_of_cell (pass2 (pass1 py_float cells)) cell = []).
Proof.
  split; [intros conn; apply pass3_resolves|]. split.
  - intros cell s t ns nt He Hs Ht Hns Hnt. unfold edge_of_cell.
    rewrite He, Hs, Ht. simpl. now rewrite !assoc_pass2, Hns, Hnt.
  - intros cell H. unfold edge_of_cell.
    destruct (opt_eqb (get cell "edge") "1"); [|reflexivity].
    destruct (get cell "source") as [s|]; [|reflexivity].
    destruct (get cell "target") as [t|]; [|reflexivity].
    rewrite !assoc_pass2.
    destruct (H s t eq_refl eq_refl) as [-> | ->]; simpl; [reflexivity|].
    now destruct (option_map _ _).
Qed.

(** ** Failure and output *)

(** C6 (all or nothing).  A source that is not well-formed, or whose root
    has no graph-model container, makes the parser return [None]; the
    documents the parser returns are exactly the whole documents; and the
    cleaning of the forest never fails. *)
Theorem all_or_nothing (src : et_parse) :
  (src = ParseError -> parse_drawio_xml_v3 py_float src = ReturnNone) /\
  (forall root, src = Root root -> find_graph_model_root root = None ->
     parse_drawio_xml_v3 py_float src = ReturnNone) /\
  (forall doc,
     parse_drawio_xml_v3 py_float src = Return doc <-> complete py_float src doc) /\
  parse_drawio_xml_v3 py_float src <> Raise KeyError.
Proof.
  split; [now intros ->|]. split; [intros root -> H; simpl; now rewrite H|].
  destruct src as [| |root]; simpl.
  1, 2: split; [|discriminate]; intros doc; split; [discriminate|];
        intros (r & _ & _ & E & _); discriminate.
  destruct (find_graph_model_root root) as [g|] eqn:Hg.
  - destruct (parse_Root root g Hg) as [forest [Hf Hp]].
    unfold parse_drawio_xml_v3 in Hp. rewrite Hg in Hp. rewrite Hp. clear Hp.
    split.
    + intros doc. split.
      * destruct (find root "diagram") as [dg|] eqn:Hd; [|discriminate].
        intros [= <-]. exists root, g, dg. simpl. auto 10.
      * intros (r & g' & dg & [= <-] & Hg' & Hd & Hv & Hname & Harch & Hconn).
        assert (g' = g) by congruence. subst g'. rewrite Hd.
        destruct doc as [v nm ar cn]. simpl in *. congruence.
    + now destruct (find root "diagram").
  - split; [|discriminate]. intros doc. split; [discriminate|].
    intros (r & g' & dg & [= <-] & Hg' & _). congruence.
Qed.

(** C9 (default diagram name).  When the root has a graph-model container
    and a diagram element that carries no name, the parser returns the
    whole document, and its [diagram_name] is the placeholder
    [Untitled]. *)
Theorem default_diagram_name (root g diagram : element) :
  find_graph_model_root root = Some g ->
  find root "diagram" = Some diagram ->
  get diagram "name" = None ->
  exists doc,
    parse_drawio_xml_v3 py_float (Root root) = Return doc /\
    diagram_name doc = "Untitled" /\
    complete py_float (Root root) doc.
Proof.
  intros Hg Hd Hn. destruct (parse_Root root g Hg) as [forest [Hf Hp]].
  rewrite Hd, Hn in Hp. eexists. split; [exact Hp|]. split; [reflexivity|].
  exists root, g, diagram. simpl. rewrite Hn. auto 10.
Qed.

End DocumentClaims.

Lemma default_diagram_name_witness :
  exists g diagram,
    find_graph_model_root (mxfile [] nested_cells) = Some g /\
    find (mxfile [] nested_cells) "diagram" = Some diagram /\
    get diagram "name" = None /\
    exists doc,
      parse_drawio_xml_v3 decimal_float (Root (mxfile [] nested_cells)) = Return doc /\
      diagram_name doc = "Untitled" /\
      complete decimal_float (Root (mxfile [] nested_cells)) doc.
Proof.
  eexists. eexists.
  assert (Hg : find_graph_model_root (mxfile [] nested_cells) = Some _) by reflexivity.
  assert (Hd : find (mxfile [] nested_cells) "diagram" = Some _) by reflexivity.
  split; [exact Hg|]. split; [exact Hd|]. split; [reflexivity|].
  exact (default_diagram_name decimal_float _ _ _ Hg Hd eq_refl).
Defined.

(** C2 (forest invariant), on two boxes drawn on top of each other: each
    is made a child of the other, so neither is a root, and the emitted
    forest holds neither. *)
Theorem coincident_boxes_vanish :
  keys (pass1 decimal_float coincident_cells) = ["D"; "E"] /\
  assigned (pass2 (pass1 decimal_float coincident_cells)) "D" "E" /\
  assigned (pass2 (pass1 decimal_float coincident_cells)) "E" "D" /\
  parse_drawio_xml_v3 decimal_float
    (Root (mxfile [("name", "Page-1")] coincident_cells)) =
  Return (OutputSchema "3.0" "Page-1" [] []).
Proof.
  split; [vm_compute; reflexivity|]. split.
  { eexists. split; [vm_compute; reflexivity|]. simpl. now left. }
  split.
  { eexists. split; [vm_compute; reflexivity|]. simpl. now left. }
  vm_compute. reflexivity.
Qed.

(** ** Degenerate boxes *)

Section DegenerateClaims.

Variable py_float : string -> option float.

(** C8, as the code has it.  A labelled vertex cell with an id whose box
    has zero width and zero height becomes an Element; a box contains it
    exactly when the point lies in the closed extent of the box; and it
    is made the parent only of elements whose own box lies within the
    point: an element whose right edge is beyond its left edge, or whose
    bottom edge is beyond its top edge, never gets it as parent. *)
Theorem degenerate_box (gz : geometry_t) :
  PrimFloat.eqb (width gz) PyFloat.zero = true ->
  PrimFloat.eqb (height gz) PyFloat.zero = true ->
  (forall cell i,
     marked_vertex cell -> has_label cell -> get cell "id" = Some i -> i <> "" ->
     parse_geometry py_float cell = Some gz ->
     node_of_cell py_float cell = Some (i, Node i (cell_label cell) (Some gz) [])) /\
  (forall ga,
     contains ga gz <->
     PyFloat.le (x ga) (x gz) = true /\ PyFloat.le (y ga) (y gz) = true /\
     PyFloat.le (x gz) (x ga + width ga)%float = true /\
     PyFloat.le (y gz) (y ga + height ga)%float = true) /\
  (forall cells z b,
     geometry_of (pass1 py_float cells) z = Some gz ->
     assigned (pass2 (pass1 py_float cells)) z b ->
     exists gb,
       geometry_of (pass1 py_float cells) b = Some gb /\
       contains gz gb /\
       PyFloat.lt (x gb) (x gb + width gb)%float = false /\
       PyFloat.lt (y gb) (y gb + height gb)%float = false).
Proof.
  intros Hw Hh. split; [|split].
  - intros cell i Hv Hl Hi Hne Hg. apply truthy_has_label in Hl.
    now apply node_of_cell_intro.
  - intros ga. unfold contains, PyFloat.ge.
    rewrite (FloatOrder.le_add_zero_l _ _ _ Hw), (FloatOrder.le_add_zero_l _ _ _ Hh).
    tauto.
  - intros cells z b Hz Ha.
    apply (assigned_iff _ (pass1_fresh py_float cells)) in Ha.
    destruct Ha as [_ Hp]. apply best_parent_spec in Hp.
    destruct Hp as (_ & _ & Hc & _).
    destruct (is_contained_Some _ _ Hc) as (gb & ga & Egb & Ega & Hcont).
    assert (ga = gz) by congruence. subst ga. clear Hc. rename Hcont into Hc.
    exists gb. split; [assumption|]. split; [assumption|].
    destruct Hc as (Hx & Hy & Hxw & Hyh). unfold PyFloat.ge in Hx, Hy.
    rewrite (FloatOrder.le_add_zero_r _ _ _ Hw) in Hxw.
    rewrite (FloatOrder.le_add_zero_r _ _ _ Hh) in Hyh.
    split; eapply FloatOrder.le_le_not_lt; eassumption.
Qed.

End DegenerateClaims.

(** C8, as the claim words it, fails: of two points at the same place,
    each is made the parent of the other. *)
Lemma point_parents_point :
  exists gz,
    geometry_of (pass1 decimal_float point_cells) "Z" = Some gz /\
    PrimFloat.eqb (width gz) PyFloat.zero = true /\
    PrimFloat.eqb (height gz) PyFloat.zero = true /\
    assigned (pass2 (pass1 decimal_float point_cells)) "Z" "Z2".
Proof.
  eexists. split; [vm_compute; reflexivity|].
  split; [vm_compute; reflexivity|]. split; [vm_compute; reflexivity|].
  eexists. split; [vm_compute; reflexivity|]. simpl. now left.
Qed.

Lemma degenerate_box_witness :
  PrimFloat.eqb 0%float PyFloat.zero = true /\
  (forall cell i,
     marked_vertex cell -> has_label cell -> get cell "id" = Some i -> i <> "" ->
     parse_geometry decimal_float cell = Some (Geometry 5 5 0 0) ->
     node_of_cell decimal_float cell =
       Some (i, Node i (cell_label cell) (Some (Geometry 5 5 0 0)) [])) /\
  (forall ga,
     contains ga (Geometry 5 5 0 0) <->
     PyFloat.le (x ga) 5 = true /\ PyFloat.le (y ga) 5 = true /\
     PyFloat.le 5 (x ga + width ga)%float = true /\
     PyFloat.le 5 (y ga + height ga)%float = true) /\
  (forall cells z b,
     geometry_of (pass1 decimal_float cells) z = Some (Geometry 5 5 0 0) ->
     assigned (pass2 (pass1 decimal_float cells)) z b ->
     exists gb,
       geometry_of (pass1 decimal_float cells) b = Some gb /\
       contains (Geometry 5 5 0 0) gb /\
       PyFloat.lt (x gb) (x gb + width gb)%float = false /\
       PyFloat.lt (y gb) (y gb + height gb)%float = false).
Proof.
  split; [reflexivity|].
  exact (degenerate_box decimal_float (Geometry 5 5 0 0) eq_refl eq_refl).
Defined.

(** ** The assembled forest *)

(** X1.  On every list of cells the forest is assembled, [clean_tree]
    coming to an end within the number of Elements; its trees stand on
    the Elements for which pass 2 found no parent, in the order of the
    keys; no id occurs twice in it; and it holds exactly the Elements from
    which walking up the computed parents comes to such a root. *)
Theorem forest_well_formed (py_float : string -> option float)
    (cells : list element) :
  exists forest,
    resolve_and_assemble (pass1 py_float cells) = Some forest /\
    map tree_id forest = hierarchical_tree (pass2 (pass1 py_float cells)) /\
    NoDup (forest_ids forest) /\
    forall e, In e (forest_ids forest) <->
              exists anc, chain (pass1 py_float cells) e anc.
Proof.
  pose proof (pass1_fresh py_float cells) as Hfresh.
  destruct (clean_tree_total _ Hfresh) as [forest [Hf Hids]].
  exists forest. split; [exact Hf|]. split; [exact Hids|]. split.
  - now apply (forest_ids_NoDup _ Hfresh).
  - intros e. now apply (forest_ids_chain _ Hfresh).
Qed.

(** ** Ties between candidates *)

(** X2.  The parent of [c] is the first, in the order of the keys, of the
    candidates with the least area: the candidates before it have an
    area that is not at or below its own, and no candidate after it has
    an area strictly below. *)
Theorem first_smallest_candidate_wins (nodes : dict) (ids : list string)
    (c p : string) :
  best_parent nodes ids c = Some p ->
  exists before after a,
    potential_parents nodes ids c = before ++ (p, a) :: after /\
    (forall item, In item before -> PyFloat.le (snd item) a = false) /\
    (forall item, In item after -> PyFloat.lt (snd item) a = false).
Proof.
  unfold best_parent.
  destruct (potential_parents nodes ids c) as [|b rest]; [discriminate|].
  intros [= <-].
  destruct (min_by_area_first rest b) as (before & after & E & Hb & Ha & _).
  exists before, after, (snd (min_by_area b rest)).
  split; [|split; assumption].
  now rewrite E, <- surjective_pairing.
Qed.

Lemma first_smallest_candidate_wins_witness :
  best_parent (pass1 decimal_float tie_cells) ["D"; "E"; "F"] "F" = Some "D" /\
  exists before after a,
    potential_parents (pass1 decimal_float tie_cells) ["D"; "E"; "F"] "F" =
      before ++ ("D", a) :: after /\
    (forall item, In item before -> PyFloat.le (snd item) a = false) /\
    (forall item, In item after -> PyFloat.lt (snd item) a = false).
Proof.
  assert (H : best_parent (pass1 decimal_float tie_cells) ["D"; "E"; "F"] "F"
              = Some "D") by (vm_compute; reflexivity).
  split; [exact H|].
  exact (first_smallest_candidate_wins _ _ _ _ H).
Defined.

(** * Further properties of the resolver and the assembler *)

Lemma contains_trans (ga gb gc : geometry_t) :
  contains ga gb -> contains gb gc -> contains ga gc.
Proof.
  unfold contains, PyFloat.ge.
  intros (H1 & H2 & H3 & H4) (K1 & K2 & K3 & K4).
  repeat split; eapply FloatOrder.le_trans; eassumption.
Qed.

Section ResolverFacts.

Variable py_float : string -> option float.

(** X3.  An Element has at most one parent: if pass 2 appended [c] to the
    children of [p], then [p] and [c] are different Elements, [c] is in
    the children of no other Element, and it occurs once in the children
    of [p]. *)
Theorem parent_is_unique (cells : list element) (p c : string) (n : node) :
  assoc p (pass2 (pass1 py_float cells)) = Some n ->
  In c (children n) ->
  p <> c /\
  In p (keys (pass1 py_float cells)) /\ In c (keys (pass1 py_float cells)) /\
  count_occ string_dec (children n) c = 1 /\
  forall p', assigned (pass2 (pass1 py_float cells)) p' c -> p' = p.
Proof.
  intros Hn Hc. pose proof (pass1_fresh py_float cells) as Hfresh.
  assert (Ha : assigned (pass2 (pass1 py_float cells)) p c) by (exists n; auto).
  apply (assigned_iff _ Hfresh) in Ha. destruct Ha as [Hck Hp].
  pose proof Hp as Hspec. apply best_parent_spec in Hspec.
  destruct Hspec as (Hpk & Hne & _).
  split; [assumption|]. split; [assumption|]. split; [assumption|]. split.
  - apply NoDup_count_occ'; [|assumption].
    apply (pass2_entry _ Hfresh) in Hn. destruct Hn as (_ & -> & _).
    apply NoDup_filter. apply Hfresh.
  - intros p' Ha'. apply (assigned_iff _ Hfresh) in Ha'. destruct Ha' as [_ Hp'].
    congruence.
Qed.

(** X4.  Pass 2 only appends to children lists: it keeps the keys and
    their order, and under every key the id, the label and the geometry
    of the object; what was in a children list stays at its front. *)
Theorem pass2_only_appends_children (d : dict) :
  keys (pass2 d) = keys d /\
  forall k,
    match assoc k d, assoc k (pass2 d) with
    | Some n0, Some n =>
        id n = id n0 /\ label n = label n0 /\ geometry n = geometry n0 /\
        exists extra, children n = children n0 ++ extra /\
                      forall c, In c extra -> In c (keys d) /\ c <> k
    | None, None => True
    | _, _ => False
    end.
Proof.
  split; [apply keys_pass2|]. intros k. rewrite assoc_pass2.
  destruct (assoc k d) as [n0|]; simpl; [|exact I].
  repeat split. eexists. split; [reflexivity|].
  intros c Hc. apply filter_In in Hc. destruct Hc as [Hc Hp].
  split; [assumption|]. apply opt_eqb_Some in Hp.
  unfold parent_of in Hp. apply best_parent_spec in Hp. now destruct Hp as (_ & Hne & _).
Qed.

End ResolverFacts.

Lemma parent_is_unique_witness :
  exists n,
    assoc "A" (pass2 (pass1 decimal_float nested_cells)) = Some n /\
    In "B" (children n) /\
    "A" <> "B" /\
    In "A" (keys (pass1 decimal_float nested_cells)) /\
    In "B" (keys (pass1 decimal_float nested_cells)) /\
    count_occ string_dec (children n) "B" = 1 /\
    forall p', assigned (pass2 (pass1 decimal_float nested_cells)) p' "B" -> p' = "A".
Proof.
  eexists.
  assert (Hn : assoc "A" (pass2 (pass1 decimal_float nested_cells)) = Some _)
    by (vm_compute; reflexivity).
  assert (Hc : In "B" ["B"]) by (now left).
  split; [exact Hn|]. split; [exact Hc|].
  exact (parent_is_unique decimal_float nested_cells "A" "B" _ Hn Hc).
Defined.

Section LoaderFacts.

Variable py_float : string -> option float.

Lemma keys_pass1_fold (post : list element) : forall d,
  exists more, keys (fold_left (pass1_step py_float) post d) = keys d ++ more.
Proof.
  induction post as [|c post IH]; intros d; simpl.
  - exists []. now rewrite app_nil_r.
  - destruct (IH (pass1_step py_float d c)) as [more ->].
    unfold pass1_step. destruct (node_of_cell py_float c) as [[k n]|].
    + rewrite keys_dict_set. destruct (mem k (keys d)).
      * now exists more.
      * exists (k :: more). now rewrite <- app_assoc.
    + now exists more.
Qed.

Lemma assoc_pass1_fold (post : list element) (k : string) : forall d,
  (forall c n, In c post -> node_of_cell py_float c <> Some (k, n)) ->
  assoc k (fold_left (pass1_step py_float) post d) = assoc k d.
Proof.
  induction post as [|c post IH]; intros d Hno; simpl; [reflexivity|].
  rewrite IH; [|intros c' n' Hc'; apply Hno; now right].
  unfold pass1_step. destruct (node_of_cell py_float c) as [[k' n']|] eqn:E;
    [|reflexivity].
  rewrite assoc_dict_set. destruct (String.eqb_spec k k') as [->|]; [|reflexivity].
  destruct (Hno c n' (or_introl eq_refl) E).
Qed.

(** X5.  Of the cells that carry the same id, the last one that qualifies
    gives the Element its label and geometry, while the id keeps the
    place among the keys that its first cell took; the keys stay
    distinct, so there is one Element per id. *)
Theorem last_cell_with_an_id_wins (pre post : list element) (cell : element)
    (k : string) (n : node) :
  node_of_cell py_float cell = Some (k, n) ->
  (forall c n', In c post -> node_of_cell py_float c <> Some (k, n')) ->
  assoc k (pass1 py_float (pre ++ cell :: post)) = Some n /\
  NoDup (keys (pass1 py_float (pre ++ cell :: post))) /\
  exists more,
    keys (pass1 py_float (pre ++ cell :: post)) =
    keys (pass1 py_float pre)
      ++ (if mem k (keys (pass1 py_float pre)) then [] else [k]) ++ more.
Proof.
  intros E Hno. split; [|split].
  - unfold pass1. rewrite fold_left_app. simpl.
    rewrite assoc_pass1_fold by (intros c n' Hc; now apply Hno).
    unfold pass1_step at 1. rewrite E, assoc_dict_set. now rewrite String.eqb_refl.
  - apply pass1_fresh.
  - unfold pass1. rewrite fold_left_app. simpl.
    destruct (keys_pass1_fold post
                (pass1_step py_float (fold_left (pass1_step py_float) pre []) cell))
      as [more ->].
    exists more. unfold pass1_step. rewrite E, keys_dict_set.
    destruct (mem k _); [now rewrite app_nil_l|now rewrite <- app_assoc].
Qed.

End LoaderFacts.

Lemma last_cell_with_an_id_wins_witness :
  exists n,
    node_of_cell decimal_float (vertex_cell "A" "second" "5" "5" "20" "20")
      = Some ("A", n) /\
    label n = "second" /\
    assoc "A" (pass1 decimal_float duplicate_cells) = Some n /\
    NoDup (keys (pass1 decimal_float duplicate_cells)) /\
    exists more,
      keys (pass1 decimal_float duplicate_cells) =
      keys (pass1 decimal_float
              [vertex_cell "A" "first" "0" "0" "10" "10";
               vertex_cell "B" "other" "50" "50" "10" "10"])
        ++ (if mem "A" (keys (pass1 decimal_float
                               [vertex_cell "A" "first" "0" "0" "10" "10";
                                vertex_cell "B" "other" "50" "50" "10" "10"]))
            then [] else ["A"]) ++ more.
Proof.
  eexists.
  assert (E : node_of_cell decimal_float (vertex_cell "A" "second" "5" "5" "20" "20")
              = Some ("A", _)) by (vm_compute; reflexivity).
  split; [exact E|]. split; [reflexivity|].
  exact (last_cell_with_an_id_wins decimal_float
           [vertex_cell "A" "first" "0" "0" "10" "10";
            vertex_cell "B" "other" "50" "50" "10" "10"]
           [] _ "A" _ E (fun c n' (H : In c []) => match H with end)).
Defined.

Lemma Forall2_In_r {A B : Type} (R : A -> B -> Prop) (l : list A) (l' : list B) (b : B) :
  Forall2 R l l' -> In b l' -> exists a, In a l /\ R a b.
Proof.
  induction 1 as [|a0 b0 l l' H0 _ IH]; intros HI; [destruct HI|].
  destruct HI as [<-|HI].
  - exists a0. split; [now left|assumption].
  - destruct (IH HI) as [a [Ha HR]]. exists a. split; [now right|assumption].
Qed.

Lemma potential_parents_length d ids c :
  length (potential_parents d ids c) = length (filter (candidate d c) ids).
Proof.
  unfold potential_parents, candidate.
  induction ids as [|p ids IH]; simpl; [reflexivity|].
  rewrite length_app, IH.
  destruct (String.eqb c p); simpl; [reflexivity|].
  now destruct (is_contained _ _).
Qed.

Lemma filter_length_lt {A : Type} (f g : A -> bool) (l : list A) (a : A) :
  (forall x, In x l -> f x = true -> g x = true) ->
  In a l -> g a = true -> f a = false ->
  length (filter f l) < length (filter g l).
Proof.
  induction l as [|x l IH]; intros Hfg Ha Hga Hfa; [destruct Ha|].
  assert (Hle : forall l', (forall y, In y l' -> f y = true -> g y = true) ->
                  length (filter f l') <= length (filter g l')).
  { clear. induction l' as [|y l' IH']; intros H; simpl; [lia|].
    specialize (IH' (fun z Hz => H z (or_intror Hz))).
    destruct (f y) eqn:Ef.
    - rewrite (H y (or_introl eq_refl) Ef). simpl. lia.
    - destruct (g y); simpl; lia. }
  simpl. destruct Ha as [->|Ha].
  - rewrite Hfa, Hga. simpl.
    specialize (Hle l (fun z Hz => Hfg z (or_intror Hz))). lia.
  - specialize (IH (fun z Hz => Hfg z (or_intror Hz)) Ha Hga Hfa).
    destruct (f x) eqn:Ef.
    + rewrite (Hfg x (or_introl eq_refl) Ef). simpl. lia.
    + destruct (g x); simpl; lia.
Qed.

Section ForestFacts.

Variable d0 : dict.
Hypothesis Hfresh : fresh d0.

(** Every node of a cleaned tree is itself the cleaned tree of an
    element with a walk up to a root. *)
Lemma cleaned_subtree s t :
  subtree s t -> forall fuel c anc,
  chain d0 c anc -> clean_node fuel (pass2 d0) c = Some t ->
  exists fuel' c' anc',
    chain d0 c' anc' /\ clean_node fuel' (pass2 d0) c' = Some s.
Proof.
  induction 1 as [t|s k t Hk Hsub IH]; intros fuel c anc Hch Ht.
  - now exists fuel, c, anc.
  - destruct fuel; simpl in Ht; [discriminate|].
    destruct (assoc c (pass2 d0)) as [n|] eqn:En; [|discriminate].
    destruct (sequence _) as [ts|] eqn:Ets; [|discriminate].
    injection Ht as <-. simpl in Hk.
    apply sequence_map_inv in Ets.
    destruct (Forall2_In_r _ _ _ _ Ets Hk) as [r [Hr Hclean]].
    apply (IH fuel r (c :: anc)); [|assumption].
    assert (Ha : assigned (pass2 d0) c r) by (exists n; auto).
    apply (assigned_iff d0 Hfresh) in Ha. destruct Ha. now constructor.
Qed.

Lemma in_forest_cleaned forest s :
  resolve_and_assemble d0 = Some forest -> in_forest s forest ->
  exists fuel c anc,
    chain d0 c anc /\ clean_node fuel (pass2 d0) c = Some s.
Proof.
  unfold resolve_and_assemble, clean_tree. cbv zeta.
  intros H (t & Ht & Hsub). apply sequence_map_inv in H.
  destruct (Forall2_In_r _ _ _ _ H Ht) as [r [Hr Hclean]].
  exact (cleaned_subtree s t Hsub _ r [] (root_chain d0 Hfresh r Hr) Hclean).
Qed.

(** Every element lies within the boxes of all its computed ancestors. *)
Lemma chain_contains c anc :
  chain d0 c anc -> forall a, In a anc ->
  exists ga gc,
    geometry_of d0 a = Some ga /\ geometry_of d0 c = Some gc /\ contains ga gc.
Proof.
  induction 1 as [r Hr Hp|c p anc Hc Hp Hch IH]; intros a Ha; [destruct Ha|].
  unfold parent_of in Hp. apply best_parent_spec in Hp.
  destruct Hp as (_ & _ & Hcont & _).
  destruct (is_contained_Some _ _ Hcont) as (gc & gp & Egc & Egp & Hpc).
  destruct Ha as [<-|Ha]; [now exists gp, gc|].
  destruct (IH a Ha) as (ga & gp' & Ega & Egp' & Hap).
  assert (gp' = gp) by congruence. subst gp'.
  exists ga, gc. split; [assumption|]. split; [assumption|].
  exact (contains_trans _ _ _ Hap Hpc).
Qed.

(** Without two different elements whose boxes contain each other, the
    parent of an element has fewer candidate parents than the element,
    so walking up the parents comes to a root. *)
Lemma chain_exists :
  (forall a b ga gb, a <> b ->
     geometry_of d0 a = Some ga -> geometry_of d0 b = Some gb ->
     contains ga gb -> ~ contains gb ga) ->
  forall m e, In e (keys d0) ->
    length (filter (candidate d0 e) (keys d0)) <= m ->
    exists anc, chain d0 e anc.
Proof.
  intros Hno. induction m as [|m IH]; intros e He Hlen.
  - exists []. constructor; [assumption|]. unfold parent_of, best_parent.
    pose proof (potential_parents_length d0 (keys d0) e) as Hpp.
    destruct (potential_parents d0 (keys d0) e); [reflexivity|simpl in Hpp; lia].
  - destruct (parent_of d0 e) as [p|] eqn:Ep; [|exists []; now constructor].
    pose proof Ep as Hspec. unfold parent_of in Hspec. apply best_parent_spec in Hspec.
    destruct Hspec as (Hp & Hne & Hcont & _).
    destruct (is_contained_Some _ _ Hcont) as (ge & gp & Ege & Egp & Hpe).
    destruct (IH p Hp) as [anc Hanc]; [|exists (p :: anc); now constructor].
    assert (Hlt : length (filter (candidate d0 p) (keys d0)) <
                  length (filter (candidate d0 e) (keys d0))); [|lia].
    apply (filter_length_lt _ _ _ p); try assumption.
    + intros a _ Ha. unfold candidate in *. apply andb_true_iff in Ha.
      destruct Ha as [Hap Hc]. apply negb_true_iff, String.eqb_neq in Hap.
      destruct (is_contained_Some _ _ Hc) as (gp' & ga & Egp' & Ega & Hcap).
      assert (gp' = gp) by congruence. subst gp'.
      apply andb_true_iff. split.
      * apply negb_true_iff, String.eqb_neq. intros <-.
        assert (ga = ge) by congruence. subst ga.
        exact (Hno p e gp ge Hne Egp Ege Hpe Hcap).
      * rewrite Ege, Ega. apply is_contained_contains.
        exact (contains_trans _ _ _ Hcap Hpe).
    + unfold candidate. apply andb_true_iff. split; [|assumption].
      apply negb_true_iff, String.eqb_neq. congruence.
    + unfold candidate. now rewrite String.eqb_refl.
Qed.

End ForestFacts.

Section ForestClaims.

Variable py_float : string -> option float.

(** X6.  When no two different Elements have boxes that contain each
    other, the forest invariant holds: the forest is assembled and every
    Element occurs in it exactly once. *)
Theorem forest_invariant_without_mutual_containment (cells : list element) :
  (forall a b ga gb, a <> b ->
     geometry_of (pass1 py_float cells) a = Some ga ->
     geometry_of (pass1 py_float cells) b = Some gb ->
     contains ga gb -> ~ contains gb ga) ->
  exists forest,
    resolve_and_assemble (pass1 py_float cells) = Some forest /\
    NoDup (forest_ids forest) /\
    forall e, In e (forest_ids forest) <-> In e (keys (pass1 py_float cells)).
Proof.
  intros Hno. pose proof (pass1_fresh py_float cells) as Hfresh.
  destruct (clean_tree_total _ Hfresh) as [forest [Hf _]].
  exists forest. split; [exact Hf|]. split; [now apply (forest_ids_NoDup _ Hfresh)|].
  intros e. rewrite (forest_ids_chain _ Hfresh forest e Hf). split.
  - intros [anc Hch]. apply (chain_incl _ _ _ Hch). now left.
  - intros He. exact (chain_exists _ Hno _ e He (Nat.le_refl _)).
Qed.

(** X7.  In the assembled forest the box of every node contains the box
    of every node below it. *)
Theorem nodes_lie_within_their_ancestors (cells : list element)
    (forest : list tree) (s : tree) (e : string) :
  resolve_and_assemble (pass1 py_float cells) = Some forest ->
  in_forest s forest -> In e (tree_ids s) -> e <> tree_id s ->
  exists gs ge,
    geometry_of (pass1 py_float cells) (tree_id s) = Some gs /\
    geometry_of (pass1 py_float cells) e = Some ge /\
    contains gs ge.
Proof.
  intros Hf Hs He Hne. pose proof (pass1_fresh py_float cells) as Hfresh.
  destruct (in_forest_cleaned _ Hfresh forest s Hf Hs) as (fuel & c & anc & Hch & Hclean).
  rewrite (clean_node_id _ _ _ _ (fresh_pass2_id _ Hfresh) Hclean) in *.
  destruct (clean_node_NoDup _ Hfresh fuel c anc s Hch Hclean) as [_ Hthr].
  destruct (Hthr e He) as (pre & ance & Hche & E).
  destruct pre as [|e' pre]; simpl in E; [congruence|].
  injection E as <- ->.
  apply (chain_contains _ e _ Hche). apply in_or_app. right. now left.
Qed.

(** X8.  Every node of the assembled forest carries the id and the label
    of its Element, and its children are the Elements whose computed
    parent it is, in the order of the keys. *)
Theorem emitted_node_structure (cells : list element) (forest : list tree)
    (s : tree) :
  resolve_and_assemble (pass1 py_float cells) = Some forest ->
  in_forest s forest ->
  exists n0,
    assoc (tree_id s) (pass1 py_float cells) = Some n0 /\
    tree_label s = label n0 /\
    map tree_id (tree_children s) =
      filter (fun c => opt_eqb (parent_of (pass1 py_float cells) c) (tree_id s))
        (keys (pass1 py_float cells)).
Proof.
  intros Hf Hs. pose proof (pass1_fresh py_float cells) as Hfresh.
  destruct (in_forest_cleaned _ Hfresh forest s Hf Hs) as (fuel & c & anc & Hch & Hclean).
  destruct fuel; simpl in Hclean; [discriminate|].
  destruct (assoc c (pass2 _)) as [n|] eqn:En; [|discriminate].
  destruct (sequence _) as [ts|] eqn:Ets; [|discriminate].
  injection Hclean as <-. simpl.
  pose proof (clean_tree_ids fuel _ (children n) ts (fresh_pass2_id _ Hfresh) Ets) as Hids.
  apply (pass2_entry _ Hfresh) in En.
  destruct En as (-> & Hch' & n0 & Hn0 & Hl & _).
  exists n0. split; [assumption|]. split; [assumption|]. now rewrite Hids.
Qed.

End ForestClaims.

Ltac refute_mutual H1 H2 :=
  first [ refute_contains H1 | refute_contains H2 ].

Lemma forest_invariant_without_mutual_containment_witness :
  (forall a b ga gb, a <> b ->
     geometry_of (pass1 decimal_float nested_cells) a = Some ga ->
     geometry_of (pass1 decimal_float nested_cells) b = Some gb ->
     contains ga gb -> ~ contains gb ga) /\
  exists forest,
    resolve_and_assemble (pass1 decimal_float nested_cells) = Some forest /\
    NoDup (forest_ids forest) /\
    forall e, In e (forest_ids forest) <->
              In e (keys (pass1 decimal_float nested_cells)).
Proof.
  assert (Hno : forall a b ga gb, a <> b ->
            geometry_of (pass1 decimal_float nested_cells) a = Some ga ->
            geometry_of (pass1 decimal_float nested_cells) b = Some gb ->
            contains ga gb -> ~ contains gb ga).
  { intros a b ga gb Hne Ea Eb H1 H2. run_pass1 nested_cells.
    unfold geometry_of in Ea, Eb. cbn [assoc] in Ea, Eb.
    destruct (String.eqb_spec a "A"); [|destruct (String.eqb_spec a "B");
      [|destruct (String.eqb_spec a "C"); [|discriminate]]];
    (destruct (String.eqb_spec b "A"); [|destruct (String.eqb_spec b "B");
      [|destruct (String.eqb_spec b "C"); [|discriminate]]]);
    try congruence; injection Ea as <-; injection Eb as <-; refute_mutual H1 H2. }
  split; [exact Hno|].
  exact (forest_invariant_without_mutual_containment decimal_float nested_cells Hno).
Defined.

Lemma nodes_lie_within_their_ancestors_witness :
  exists forest s,
    resolve_and_assemble (pass1 decimal_float nested_cells) = Some forest /\
    in_forest s forest /\ In "B" (tree_ids s) /\ "B" <> tree_id s /\
    exists gs ge,
      geometry_of (pass1 decimal_float nested_cells) (tree_id s) = Some gs /\
      geometry_of (pass1 decimal_float nested_cells) "B" = Some ge /\
      contains gs ge.
Proof.
  exists [Tree "A" "Box A" [Tree "B" "Box B" []]; Tree "C" "Box C" []].
  exists (Tree "A" "Box A" [Tree "B" "Box B" []]).
  assert (Hf : resolve_and_assemble (pass1 decimal_float nested_cells) =
               Some [Tree "A" "Box A" [Tree "B" "Box B" []]; Tree "C" "Box C" []])
    by (vm_compute; reflexivity).
  assert (Hs : in_forest (Tree "A" "Box A" [Tree "B" "Box B" []])
                 [Tree "A" "Box A" [Tree "B" "Box B" []]; Tree "C" "Box C" []]).
  { eexists. split; [now left|constructor]. }
  assert (He : In "B" (tree_ids (Tree "A" "Box A" [Tree "B" "Box B" []])))
    by (simpl; auto).
  assert (Hne : "B" <> tree_id (Tree "A" "Box A" [Tree "B" "Box B" []]))
    by discriminate.
  split; [exact Hf|]. split; [exact Hs|]. split; [exact He|]. split; [exact Hne|].
  exact (nodes_lie_within_their_ancestors decimal_float nested_cells _ _ "B"
           Hf Hs He Hne).
Defined.

Lemma emitted_node_structure_witness :
  exists forest s,
    resolve_and_assemble (pass1 decimal_float nested_cells) = Some forest /\
    in_forest s forest /\ tree_id s = "B" /\
    exists n0,
      assoc (tree_id s) (pass1 decimal_float nested_cells) = Some n0 /\
      tree_label s = label n0 /\
      map tree_id (tree_children s) =
        filter (fun c => opt_eqb (parent_of (pass1 decimal_float nested_cells) c)
                           (tree_id s))
          (keys (pass1 decimal_float nested_cells)).
Proof.
  exists [Tree "A" "Box A" [Tree "B" "Box B" []]; Tree "C" "Box C" []].
  exists (Tree "B" "Box B" []).
  assert (Hf : resolve_and_assemble (pass1 decimal_float nested_cells) =
               Some [Tree "A" "Box A" [Tree "B" "Box B" []]; Tree "C" "Box C" []])
    by (vm_compute; reflexivity).
  assert (Hs : in_forest (Tree "B" "Box B" [])
                 [Tree "A" "Box A" [Tree "B" "Box B" []]; Tree "C" "Box C" []]).
  { eexists. split; [now left|].
    eapply subtree_below; [simpl; now left|constructor]. }
  split; [exact Hf|]. split; [exact Hs|]. split; [reflexivity|].
  exact (emitted_node_structure decimal_float nested_cells _ _ Hf Hs).
Defined.

(** * The command line and the caller *)

Section CommandLineFacts.

Variable py_float : string -> option float.
Variable json_dumps : output_schema -> string.
Variable ET_parse : string -> et_parse.







Variable env : launch.


End CommandLineFacts.

(** ** Paths *)

Module PathFacts.

Local Open Scope string_scope.





Lemma append_assoc (a b c : string) : (a ++ b) ++ c = a ++ b ++ c.
Proof. induction a as [|x a IH]; simpl; [reflexivity|now rewrite IH]. Qed.

Lemma endswith_cons (p : string) (c : ascii) (s : string) :
  PyText.endswith p (String c s) =
  if String c s =? p then true else PyText.endswith p s.
Proof. reflexivity. Qed.









End PathFacts.

(** ** The loop of step 2 *)

Section LoopFacts.

Variable py_float : string -> option float.
Variable json_dumps : output_schema -> string.
Variable ET_parse : string -> et_parse.
Variable env : launch.
Variable dataset_dir : string.

Local Abbreviation verify :=
  (UnifyDataset.verify py_float json_dumps ET_parse env dataset_dir).
Local Abbreviation converted :=
  (UnifyDataset.converted py_float json_dumps ET_parse env).
Local Abbreviation json_after :=
  (json_after py_float json_dumps ET_parse env dataset_dir).
Local Abbreviation conversion_fails :=
  (conversion_fails py_float json_dumps ET_parse env dataset_dir).

Lemma run_xml_to_json_converted fs xml json :
  UnifyDataset.run_xml_to_json py_float json_dumps ET_parse env fs xml json =
  match converted fs xml with
  | Some out => (true, write_file fs json out)
  | None => (false, fs)
  end.
Proof.
  unfold UnifyDataset.run_xml_to_json, UnifyDataset.converted.
  destruct (UnifyDataset.subprocess_run _ _ _ _ _ _) as [r|]; [|reflexivity].
  now destruct (Nat.eqb (returncode r) 0).
Qed.


Lemma read_write_other fs path path' text :
  path' <> path -> read_file (write_file fs path text) path' = read_file fs path'.
Proof.
  intros H. unfold read_file, write_file. simpl.
  now destruct (String.eqb_spec path' path).
Qed.

Lemma read_write_same fs path text :
  read_file (write_file fs path text) path = Some text.
Proof. unfold read_file, write_file. simpl. now rewrite String.eqb_refl. Qed.

(** One turn of the loop, read off the file system it starts on. *)
Lemma verify_spec (st : UnifyDataset.progress) (d : string) :
  let fs := UnifyDataset.file_system st in
  let st' := verify st d in
  (forall path, path <> json_path dataset_dir d ->
     read_file (UnifyDataset.file_system st') path = read_file fs path) /\
  read_file (UnifyDataset.file_system st') (json_path dataset_dir d) = json_after fs d /\
  UnifyDataset.successful_json_conversions st' =
    UnifyDataset.successful_json_conversions st
    + (if is_some (json_after fs d) then 1 else 0) /\
  UnifyDataset.failed_json_conversions st' =
    UnifyDataset.failed_json_conversions st
    ++ (if conversion_fails fs d then [d] else []).
Proof.
  cbv zeta. unfold UnifyDataset.verify, json_after, conversion_fails.
  fold (json_path dataset_dir d). fold (xml_path dataset_dir d).
  unfold path_exists.
  destruct (read_file (UnifyDataset.file_system st) (json_path dataset_dir d))
    as [old|] eqn:Ej; simpl.
  - rewrite Ej. simpl. repeat split; [now rewrite app_nil_r].
  - destruct (read_file (UnifyDataset.file_system st) (xml_path dataset_dir d))
      as [text|] eqn:Ex; simpl.
    + rewrite run_xml_to_json_converted.
      destruct (converted (UnifyDataset.file_system st) (xml_path dataset_dir d))
        as [out|]; simpl.
      * split; [intros path Hp; now apply read_write_other|].
        split; [apply read_write_same|]. split; [reflexivity|now rewrite app_nil_r].
      * rewrite Ej. repeat split. lia.
    + rewrite Ej. repeat split; [lia|now rewrite app_nil_r].
Qed.

(** The loop never changes a file that exists, and each directory counts
    at most once. *)
Lemma loop_keeps (todo : list string) : forall st,
  let final := fold_left verify todo st in
  (forall path text,
     read_file (UnifyDataset.file_system st) path = Some text ->
     read_file (UnifyDataset.file_system final) path = Some text) /\
  UnifyDataset.successful_json_conversions final
    + length (UnifyDataset.failed_json_conversions final)
  <= UnifyDataset.successful_json_conversions st
     + length (UnifyDataset.failed_json_conversions st) + length todo /\
  UnifyDataset.successful_json_conversions st
    <= UnifyDataset.successful_json_conversions final /\
  exists more,
    UnifyDataset.failed_json_conversions final =
      UnifyDataset.failed_json_conversions st ++ more /\ incl more todo.
Proof.
  induction todo as [|d todo IH]; intros st; cbv zeta; simpl.
  - repeat split; auto; try lia. exists []. rewrite app_nil_r. split; [reflexivity|].
    intros ? [].
  - destruct (verify_spec st d) as (Hother & Hjson & Hs & Hf). cbv zeta in *.
    destruct (IH (verify st d)) as (Hk & Hc & Hm & more & Hmore & Hincl).
    cbv zeta in *. split; [|split; [|split]].
    + intros path text Hr. apply Hk.
      destruct (String.eqb_spec path (json_path dataset_dir d)) as [->|Hne].
      * rewrite Hjson. unfold json_after. now rewrite Hr.
      * now rewrite Hother.
    + rewrite Hs, Hf, length_app in Hc.
      destruct (is_some _) eqn:Ei, (conversion_fails _ _) eqn:Ec; simpl in Hc; try lia.
      exfalso. unfold conversion_fails, json_after, path_exists in *.
      clear Hother Hjson.
      destruct (read_file (UnifyDataset.file_system st) (json_path dataset_dir d));
        simpl in *; [discriminate|].
      destruct (read_file (UnifyDataset.file_system st) (xml_path dataset_dir d));
        simpl in *; [|discriminate].
      rewrite Ei in Ec. discriminate.
    + rewrite Hs in Hm. lia.
    + rewrite Hf in Hmore. rewrite Hmore, <- app_assoc. eexists. split; [reflexivity|].
      intros x Hx. apply in_app_or in Hx. destruct Hx as [Hx|Hx].
      * destruct (conversion_fails _ _); [|destruct Hx].
        destruct Hx as [<-|[]]. now left.
      * right. now apply Hincl.
Qed.


End LoopFacts.

Section LoopClaims.

Variable py_float : string -> option float.
Variable json_dumps : output_schema -> string.
Variable ET_parse : string -> et_parse.
Variable env : launch.

(** X11.  The loop of step 2 never changes or removes a file that exists:
    an [instruction.json] that is already there is left as it is.  Each
    directory is counted at most once, as a success or as a failure, and
    the directories reported as failed are among those listed. *)
Theorem existing_files_are_kept (dataset_dir : string)
    (subdirectories : list string) (fs : files) :
  (forall path text,
     read_file fs path = Some text ->
     read_file
       (UnifyDataset.file_system
          (UnifyDataset.xml_to_json_conversion py_float json_dumps ET_parse env
             dataset_dir subdirectories fs)) path = Some text) /\
  UnifyDataset.successful_json_conversions
    (UnifyDataset.xml_to_json_conversion py_float json_dumps ET_parse env
       dataset_dir subdirectories fs)
  + length
      (UnifyDataset.failed_json_conversions
         (UnifyDataset.xml_to_json_conversion py_float json_dumps ET_parse env
            dataset_dir subdirectories fs))
  <= length subdirectories /\
  incl
    (UnifyDataset.failed_json_conversions
       (UnifyDataset.xml_to_json_conversion py_float json_dumps ET_parse env
          dataset_dir subdirectories fs))
    subdirectories.
Proof.
  unfold UnifyDataset.xml_to_json_conversion.
  destruct (loop_keeps py_float json_dumps ET_parse env dataset_dir subdirectories
              (UnifyDataset.Progress fs 0 []))
    as (Hk & Hc & _ & more & Hmore & Hincl).
  cbv zeta in *. simpl in *. split; [exact Hk|]. split; [exact Hc|].
  now rewrite Hmore.
Qed.


End LoopClaims.





(** * The answers of the text model *)

Section GenerateFacts.

Variable api_key : option string.
Variable configure_ok : bool.
Variable generate_content : nat -> TfToXmlConverter.api_result.
Variable fromstring_ok : string -> bool.

Local Abbreviation attempt_once :=
  (TfToXmlConverter.attempt_once generate_content fromstring_ok).
Local Abbreviation attempts :=
  (TfToXmlConverter.attempts generate_content fromstring_ok).




End GenerateFacts.

Module SliceFacts.

Import PyStr PyStrFacts PathFacts.
Local Open Scope string_scope.

Lemma append_nil_r (s : string) : s ++ "" = s.
Proof. induction s as [|c s IH]; simpl; [reflexivity|now rewrite IH]. Qed.

Lemma occurs_refl (s : string) : occurs s s.
Proof. exists "", "". simpl. now rewrite append_nil_r. Qed.

Lemma occurs_trans (a b c : string) : occurs a b -> occurs b c -> occurs a c.
Proof.
  intros (l & r & ->) (l' & r' & ->). exists (l' ++ l), (r ++ r').
  now rewrite !append_assoc.
Qed.

Lemma occurs_strip (s : string) : occurs (strip s) s.
Proof. destruct (strip_spec s) as [(l & r & E & _) _]. now exists l, r. Qed.

Lemma occurs_drop (n : nat) (s : string) : occurs (PySlice.drop n s) s.
Proof.
  revert s. induction n as [|n IH]; intros s; [apply occurs_refl|].
  destruct s as [|c s]; [apply occurs_refl|]. simpl.
  destruct (IH s) as (l & r & E). exists (String c l), r. simpl. now rewrite <- E.
Qed.

Lemma substring_prefix (n : nat) : forall s,
  exists r, s = substring 0 n s ++ r.
Proof.
  induction n as [|n IH]; intros s.
  - exists s. now destruct s.
  - destruct s as [|c s]; [now exists ""|]. simpl.
    destruct (IH s) as [r E]. exists r. now rewrite <- E.
Qed.

Lemma occurs_drop_last (n : nat) (s : string) : occurs (PySlice.drop_last n s) s.
Proof.
  unfold PySlice.drop_last. destruct (substring_prefix (String.length s - n) s) as [r E].
  exists "", r. exact E.
Qed.

Lemma lstrip_space (w s : string) : all_space w = true -> lstrip (w ++ s) = lstrip s.
Proof.
  induction w as [|c w IH]; [reflexivity|]. simpl. intros H.
  apply andb_true_iff in H. destruct H as [Hc Hw]. rewrite Hc. auto.
Qed.

Lemma rstrip_all_space (w : string) : all_space w = true -> rstrip w = "".
Proof.
  induction w as [|c w IH]; [reflexivity|]. simpl. intros H.
  apply andb_true_iff in H. destruct H as [Hc Hw]. now rewrite (IH Hw), Hc.
Qed.

Lemma rstrip_space (s w : string) : all_space w = true -> rstrip (s ++ w) = rstrip s.
Proof.
  intros Hw. induction s as [|c s IH]; simpl; [now apply rstrip_all_space|].
  now rewrite IH.
Qed.

Lemma lstrip_id (s : string) : starts_with_space s = false -> lstrip s = s.
Proof. destruct s as [|c s]; [reflexivity|]. simpl. now intros ->. Qed.

Lemma rstrip_id (s : string) : ends_with_space s = false -> rstrip s = s.
Proof.
  induction s as [|c s IH]; [reflexivity|]. intros H.
  destruct s as [|c' s'].
  - simpl in *. now rewrite H.
  - rewrite ends_with_space_cons in H by discriminate.
    change (rstrip (String c (String c' s')))
      with (match rstrip (String c' s') with
            | "" => if isspace c then "" else String c ""
            | r => String c r
            end).
    now rewrite (IH H).
Qed.

Lemma strip_id (s : string) : trimmed s -> strip s = s.
Proof.
  intros [Hs He]. unfold strip. rewrite (lstrip_id s Hs). now apply rstrip_id.
Qed.

(** Whitespace around a trimmed text is what [strip] removes. *)
Lemma strip_around (l s r : string) :
  all_space l = true -> all_space r = true -> trimmed s ->
  strip (l ++ s ++ r) = s.
Proof.
  intros Hl Hr [Hs He]. unfold strip. rewrite (lstrip_space l _ Hl).
  destruct s as [|c s].
  - simpl. assert (H : lstrip r = "").
    { clear - Hr. induction r as [|c r IH]; [reflexivity|]. simpl in *.
      apply andb_true_iff in Hr. destruct Hr as [Hc Hr]. rewrite Hc. auto. }
    now rewrite H.
  - rewrite lstrip_id by exact Hs. rewrite rstrip_space by assumption.
    now apply rstrip_id.
Qed.

Lemma endswith_append (s p : string) : PyText.endswith p (s ++ p) = true.
Proof.
  induction s as [|c s IH].
  - simpl. destruct p; simpl; [reflexivity|].
    now rewrite Ascii.eqb_refl, String.eqb_refl.
  - change (String c s ++ p) with (String c (s ++ p)).
    rewrite endswith_cons, IH. now destruct (String c (s ++ p) =? p).
Qed.

Lemma drop_last_append (s p : string) :
  PySlice.drop_last (String.length p) (s ++ p) = s.
Proof.
  unfold PySlice.drop_last.
  assert (Hlen : String.length (s ++ p) - String.length p = String.length s).
  { assert (H : String.length (s ++ p) = String.length s + String.length p).
    { clear. induction s as [|c s IH]; simpl; [reflexivity|now rewrite IH]. }
    rewrite H. lia. }
  rewrite Hlen. clear Hlen. induction s as [|c s IH]; simpl.
  - now destruct p.
  - now rewrite IH.
Qed.

End SliceFacts.

Module CleanFacts.

Import PyStr PyStrFacts PathFacts SliceFacts.
Local Open Scope string_scope.

Lemma all_space_append (a b : string) :
  all_space a = true -> all_space b = true -> all_space (a ++ b) = true.
Proof.
  intros Ha Hb. induction a as [|c a IH]; [assumption|]. simpl in *.
  apply andb_true_iff in Ha. destruct Ha as [Hc Ha]. now rewrite Hc, IH.
Qed.

Lemma starts_with_space_append (a b : string) :
  a <> "" -> starts_with_space (a ++ b) = starts_with_space a.
Proof. destruct a; [congruence|reflexivity]. Qed.

Lemma trimmed_strip (s : string) : trimmed (strip s).
Proof. now destruct (strip_spec s). Qed.

Lemma clean_trimmed (text : string) : trimmed (TfToXmlConverter.clean text).
Proof.
  unfold TfToXmlConverter.clean. cbv zeta.
  destruct (PyText.startswith "```xml" (strip text));
    destruct (PyText.endswith "```" _); apply trimmed_strip.
Qed.

Lemma clean_occurs (text : string) : occurs (TfToXmlConverter.clean text) text.
Proof.
  unfold TfToXmlConverter.clean. cbv zeta.
  destruct (PyText.startswith "```xml" (strip text)).
  - destruct (PyText.endswith "```" _).
    + eapply occurs_trans; [apply occurs_strip|].
      eapply occurs_trans; [apply occurs_drop_last|].
      eapply occurs_trans; [apply occurs_strip|].
      eapply occurs_trans; [apply occurs_drop|apply occurs_strip].
    + eapply occurs_trans; [apply occurs_strip|].
      eapply occurs_trans; [apply occurs_drop|apply occurs_strip].
  - destruct (PyText.endswith "```" _).
    + eapply occurs_trans; [apply occurs_strip|].
      eapply occurs_trans; [apply occurs_drop_last|apply occurs_strip].
    + apply occurs_strip.
Qed.

Lemma clean_fenced (w1 w2 w3 w4 body : string) :
  all_space w1 = true -> all_space w2 = true ->
  all_space w3 = true -> all_space w4 = true ->
  trimmed body ->
  TfToXmlConverter.clean (w1 ++ "```xml" ++ w2 ++ body ++ w3 ++ "```" ++ w4) = body.
Proof.
  intros H1 H2 H3 H4 Hb. unfold TfToXmlConverter.clean. cbv zeta.
  assert (Hstrip : strip (w1 ++ "```xml" ++ w2 ++ body ++ w3 ++ "```" ++ w4)
                   = "```xml" ++ w2 ++ body ++ w3 ++ "```").
  { replace (w1 ++ "```xml" ++ w2 ++ body ++ w3 ++ "```" ++ w4)
      with (w1 ++ ("```xml" ++ w2 ++ body ++ w3 ++ "```") ++ w4)
      by (now rewrite !append_assoc).
    apply strip_around; try assumption. split; [reflexivity|].
    replace ("```xml" ++ w2 ++ body ++ w3 ++ "```")
      with (("```xml" ++ w2 ++ body ++ w3) ++ "```")
      by (now rewrite !append_assoc).
    now rewrite ends_with_space_app. }
  rewrite Hstrip.
  change (PyText.startswith "```xml" ("```xml" ++ w2 ++ body ++ w3 ++ "```"))
    with (PyText.startswith "" (w2 ++ body ++ w3 ++ "```")).
  change (PySlice.drop 6 ("```xml" ++ w2 ++ body ++ w3 ++ "```"))
    with (w2 ++ body ++ w3 ++ "```").
  replace (PyText.startswith "" (w2 ++ body ++ w3 ++ "```")) with true
    by (now destruct (w2 ++ body ++ w3 ++ "```")).
  destruct body as [|c body'] eqn:Eb.
  - assert (Hs : strip (w2 ++ "" ++ w3 ++ "```") = "```").
    { replace (w2 ++ "" ++ w3 ++ "```") with ((w2 ++ w3) ++ "```" ++ "")
        by (simpl; now rewrite append_assoc).
      apply strip_around; [now apply all_space_append|reflexivity|now split]. }
    rewrite Hs. reflexivity.
  - rewrite <- Eb in *.
    assert (Hne : body <> "") by (rewrite Eb; discriminate).
    destruct Hb as [Hbs Hbe].
    assert (Hs : strip (w2 ++ body ++ w3 ++ "```") = body ++ w3 ++ "```").
    { replace (w2 ++ body ++ w3 ++ "```") with (w2 ++ (body ++ w3 ++ "```") ++ "")
        by (now rewrite append_nil_r).
      apply strip_around; [assumption|reflexivity|]. split.
      - now rewrite starts_with_space_append.
      - replace (body ++ w3 ++ "```") with ((body ++ w3) ++ "```")
          by (now rewrite append_assoc).
        now rewrite ends_with_space_app. }
    rewrite Hs.
    replace (body ++ w3 ++ "```") with ((body ++ w3) ++ "```")
      by (now rewrite append_assoc).
    rewrite endswith_append.
    change 3 with (String.length "```"). rewrite drop_last_append.
    change (body ++ w3) with ("" ++ body ++ w3).
    apply strip_around; [reflexivity|assumption|now split].
Qed.

(** X14.  The cleaned answer has no whitespace at either end and is a
    piece of the answer; an answer that is a Markdown block, the fence
    [```xml], a trimmed body and the closing fence, with any whitespace
    around each, is cleaned to the body; and an answer that, once
    trimmed, neither begins with [```xml] nor ends with the fence is only
    trimmed. *)
Theorem clean_unwraps_a_fenced_block :
  (forall text,
     trimmed (TfToXmlConverter.clean text) /\
     occurs (TfToXmlConverter.clean text) text) /\
  (forall w1 w2 w3 w4 body,
     all_space w1 = true -> all_space w2 = true ->
     all_space w3 = true -> all_space w4 = true ->
     trimmed body ->
     TfToXmlConverter.clean
       (w1 ++ "```xml" ++ w2 ++ body ++ w3 ++ "```" ++ w4) = body) /\
  (forall text,
     PyText.startswith "```xml" (strip text) = false ->
     PyText.endswith "```" (strip text) = false ->
     TfToXmlConverter.clean text = strip text).
Proof.
  split; [intros text; split; [apply clean_trimmed|apply clean_occurs]|].
  split; [exact clean_fenced|].
  intros text Hs He. unfold TfToXmlConverter.clean. cbv zeta. now rewrite Hs, He.
Qed.

End CleanFacts.

Module ReplaceFacts.

Import PyStr PyStrFacts PathFacts SliceFacts CleanFacts.
Local Open Scope string_scope.

Lemma replace_from_drop (old new : string) (s : string) : forall skip,
  PySlice.replace_from old new skip s
  = PySlice.replace_from old new 0 (PySlice.drop skip s).
Proof.
  induction s as [|c s IH]; intros skip.
  - now destruct skip.
  - destruct skip as [|k]; [reflexivity|]. simpl PySlice.drop.
    change (PySlice.replace_from old new (S k) (String c s))
      with (PySlice.replace_from old new k s).
    apply IH.
Qed.

(** [replace] looks for [old] at the front: it puts [new] for it and goes
    on behind it, or keeps the first character and goes on behind that. *)
Lemma replace_cons (old new : string) (c : ascii) (s : string) :
  PySlice.replace old new (String c s)
  = if PyText.startswith old (String c s)
    then new ++ PySlice.replace old new (PySlice.drop (String.length old - 1) s)
    else String c (PySlice.replace old new s).
Proof.
  unfold PySlice.replace.
  change (PySlice.replace_from old new 0 (String c s))
    with (if PyText.startswith old (String c s)
          then new ++ PySlice.replace_from old new (String.length old - 1) s
          else String c (PySlice.replace_from old new 0 s)).
  now rewrite (replace_from_drop old new s (String.length old - 1)).
Qed.

Lemma startswith_cons (a b : ascii) (p s : string) :
  PyText.startswith (String a p) (String b s)
  = Ascii.eqb a b && PyText.startswith p s.
Proof. reflexivity. Qed.

Lemma startswith_inv (a : ascii) (p s : string) :
  PyText.startswith (String a p) s = true ->
  exists s', s = String a s' /\ PyText.startswith p s' = true.
Proof.
  destruct s as [|b s]; [discriminate|]. rewrite startswith_cons.
  intros H. apply andb_true_iff in H. destruct H as [H1 H2].
  apply Ascii.eqb_eq in H1. subst b. now exists s.
Qed.

Lemma leading_cons (c : ascii) (s : string) :
  leading_backquotes (String c s)
  = if Ascii.eqb c "`" then S (leading_backquotes s) else 0.
Proof. reflexivity. Qed.

Lemma startswith_backquote (p : string) (k : nat) :
  (forall s, PyText.startswith p s = true <-> k <= leading_backquotes s) ->
  forall s, PyText.startswith (String "`" p) s = true <-> S k <= leading_backquotes s.
Proof.
  intros H s. destruct s as [|c s]; [simpl; split; [discriminate|lia]|].
  rewrite startswith_cons, leading_cons, Ascii.eqb_sym.
  destruct (Ascii.eqb c "`"); simpl.
  - rewrite H. lia.
  - split; [discriminate|lia].
Qed.

Lemma startswith_fence (s : string) :
  PyText.startswith "```" s = true <-> 3 <= leading_backquotes s.
Proof.
  revert s. do 3 apply startswith_backquote.
  intros s. split; [lia|]. intros _. now destruct s.
Qed.

Lemma startswith_fence_split (s : string) :
  PyText.startswith "```" s = true ->
  exists c rest, s = String c (String "`" (String "`" rest)) /\
                 leading_backquotes s = 3 + leading_backquotes rest.
Proof.
  intros H. apply startswith_inv in H. destruct H as (s1 & -> & H).
  apply startswith_inv in H. destruct H as (s2 & -> & H).
  apply startswith_inv in H. destruct H as (s3 & -> & _).
  exists "`"%char, s3. split; reflexivity.
Qed.

(** Removing the fences takes leading backquotes away three at a time. *)
Lemma leading_after_replace (n : nat) : forall s,
  String.length s <= n ->
  exists k,
    leading_backquotes s = 3 * k + leading_backquotes (PySlice.replace "```" "" s) /\
    leading_backquotes (PySlice.replace "```" "" s) < 3.
Proof.
  induction n as [|n IH]; intros s Hlen.
  - destruct s; [|simpl in Hlen; lia]. exists 0. simpl. lia.
  - destruct s as [|c s]; [exists 0; simpl; lia|].
    rewrite replace_cons.
    destruct (PyText.startswith "```" (String c s)) eqn:E.
    + destruct (startswith_fence_split _ E) as (c' & rest & Es & Hl).
      injection Es as -> ->. simpl PySlice.drop. simpl append.
      destruct (IH rest) as (k & Hk & Hlt); [simpl in Hlen; lia|].
      exists (S k). rewrite Hl. lia.
    + assert (Hlt : leading_backquotes (String c s) < 3).
      { destruct (Nat.lt_ge_cases (leading_backquotes (String c s)) 3); [assumption|].
        apply startswith_fence in H. congruence. }
      destruct (IH s) as (k & Hk & Hk'); [simpl in Hlen; lia|].
      simpl in *. destruct (Ascii.eqb c "`"); [|exists 0; lia].
      exists 0. lia.
Qed.

Lemma occurs_cons (p : string) (c : ascii) (t : string) :
  occurs p (String c t) ->
  (exists b, String c t = p ++ b) \/ occurs p t.
Proof.
  intros (a & b & E). destruct a as [|c' a].
  - left. now exists b.
  - right. simpl in E. injection E as _ E. now exists a, b.
Qed.

Lemma startswith_append (p b : string) : PyText.startswith p (p ++ b) = true.
Proof.
  induction p as [|c p IH]; simpl; [now destruct b|].
  now rewrite Ascii.eqb_refl, IH.
Qed.

(** No fence is left where the fences were removed. *)
Lemma replace_leaves_no_fence (n : nat) : forall s,
  String.length s <= n -> ~ occurs "```" (PySlice.replace "```" "" s).
Proof.
  induction n as [|n IH]; intros s Hlen.
  - destruct s; [|simpl in Hlen; lia].
    intros (a & b & E). destruct a; discriminate.
  - destruct s as [|c s].
    { intros (a & b & E). destruct a; discriminate. }
    rewrite replace_cons.
    destruct (PyText.startswith "```" (String c s)) eqn:E.
    + destruct (startswith_fence_split _ E) as (c' & rest & Es & _).
      injection Es as -> ->. simpl PySlice.drop. simpl append.
      apply IH. simpl in Hlen. lia.
    + intros Hocc. apply occurs_cons in Hocc. destruct Hocc as [[b Eb]|Hocc].
      * assert (Hs : PyText.startswith "```"
                       (String c (PySlice.replace "```" "" s)) = true)
          by (rewrite Eb; apply startswith_append).
        apply startswith_fence in Hs.
        destruct (leading_after_replace n s) as (k & Hk & _); [simpl in Hlen; lia|].
        assert (Hge : 3 <= leading_backquotes (String c s)).
        { simpl in *. destruct (Ascii.eqb c "`"); lia. }
        apply startswith_fence in Hge. congruence.
      * revert Hocc. apply IH. simpl in Hlen. lia.
Qed.

Lemma occurs_within (p s t : string) : occurs p s -> occurs s t -> occurs p t.
Proof. apply occurs_trans. Qed.

(** X15.  The cleaned answer of processor.py has no whitespace at either
    end and holds no Markdown fence. *)
Theorem cleaned_response_has_no_fence (text : string) :
  trimmed (Processor.cleaned_response text) /\
  ~ occurs "```" (Processor.cleaned_response text).
Proof.
  unfold Processor.cleaned_response. split; [apply trimmed_strip|].
  intros Hocc.
  apply (replace_leaves_no_fence _ (PySlice.replace "```json" "" (strip text))
           (Nat.le_refl _)).
  eapply occurs_trans; [exact Hocc|apply occurs_strip].
Qed.

End ReplaceFacts.

(** * The graph-model container *)

Lemma hd_error_None {A : Type} (l : list A) : hd_error l = None <-> l = [].
Proof. destruct l; simpl; split; congruence. Qed.

Lemma flat_map_nil {A B : Type} (f : A -> list B) (l : list A) :
  flat_map f l = [] <-> forall a, In a l -> f a = [].
Proof.
  induction l as [|a l IH]; simpl.
  - split; [intros _ ? []|reflexivity].
  - split.
    + intros H. apply app_eq_nil in H. destruct H as [Ha Hl].
      intros b [<-|Hb]; [assumption|]. now apply IH.
    + intros H. rewrite (H a (or_introl eq_refl)). simpl.
      apply IH. intros b Hb. apply H. now right.
Qed.

(** X16.  The container of the cells is looked for strictly below the top
    element of the document: what is found is an element tagged [root]
    that is a child of an element tagged [mxGraphModel] below the top
    element, and the parser returns [None] exactly when no element below
    the top element is an [mxGraphModel] with a child tagged [root],
    whatever the top element itself is. *)
Theorem container_is_sought_below_the_top (py_float : string -> option float)
    (root : element) :
  (forall g, find_graph_model_root root = Some g ->
     tag g = "root" /\
     exists m, In m (flat_map iter (subelements root)) /\
               tag m = "mxGraphModel" /\ In g (subelements m)) /\
  (parse_drawio_xml_v3 py_float (Root root) = ReturnNone <->
   forall m g, In m (flat_map iter (subelements root)) ->
               tag m = "mxGraphModel" -> In g (subelements m) -> tag g <> "root").
Proof.
  split.
  - unfold find_graph_model_root. intros g Hg.
    assert (HI : In g (flat_map (fun m => findall m "root")
                         (filter (fun e => String.eqb (tag e) "mxGraphModel")
                            (flat_map iter (subelements root))))).
    { destruct (flat_map _ _) as [|g' l]; [discriminate|].
      injection Hg as ->. now left. }
    apply in_flat_map in HI. destruct HI as (m & Hm & Hgm).
    apply filter_In in Hm. destruct Hm as [Hm Ht].
    unfold findall in Hgm. apply filter_In in Hgm. destruct Hgm as [Hgs Hg'].
    apply String.eqb_eq in Ht, Hg'. split; [assumption|]. now exists m.
  - assert (Hnone : find_graph_model_root root = None <->
              forall m g, In m (flat_map iter (subelements root)) ->
                tag m = "mxGraphModel" -> In g (subelements m) -> tag g <> "root").
    { unfold find_graph_model_root. rewrite hd_error_None, flat_map_nil. split.
      - intros H m g Hm Ht Hg Hr.
        assert (Hf : findall m "root" = []).
        { apply H. apply filter_In. split; [assumption|now apply String.eqb_eq]. }
        assert (HI : In g (findall m "root")).
        { apply filter_In. split; [assumption|now apply String.eqb_eq]. }
        rewrite Hf in HI. destruct HI.
      - intros H m Hm. apply filter_In in Hm. destruct Hm as [Hm Ht].
        apply String.eqb_eq in Ht.
        destruct (findall m "root") as [|g l] eqn:E; [reflexivity|].
        assert (HI : In g (findall m "root")) by (rewrite E; now left).
        apply filter_In in HI. destruct HI as [Hg Hr]. apply String.eqb_eq in Hr.
        destruct (H m g Hm Ht Hg Hr). }
    rewrite <- Hnone. split.
    + destruct (find_graph_model_root root) as [g|] eqn:Hg; [|reflexivity].
      destruct (parse_Root py_float root g Hg) as [forest [_ Hp]]. rewrite Hp.
      destruct (find root "diagram"); discriminate.
    + intros H. simpl. now rewrite H.
Qed.

(** The retry loop on the example answers: the third attempt gives a
    fenced document, after two failures and two sleeps of five seconds. *)
Example generate_drawio_xml_example :
  TfToXmlConverter.generate_drawio_xml (Some "key") true
    example_answers example_fromstring 3 5
  = TfToXmlConverter.Run (Some "<mxfile/>") 3 10.
Proof. vm_compute. reflexivity. Qed.
